(** * Realtime event layer of the greeting-card server

    A shallow embedding of the socket.io and HTTP write-path handlers of
    [server.ts] (the file with the Express app, the [pool] of PostgreSQL
    queries and the [io] socket server), together with the zod schemas of
    [schema.ts] that those handlers validate their input with.

    Conventions of the embedding:
    - a table is the list of its rows, in insertion order; [UPDATE ... WHERE]
      rewrites the matching rows in place and [RETURNING *] yields them;
    - every [pool.query] takes a boolean: [true] when the store answers,
      [false] when the call throws (connection lost, constraint violated);
    - [uuidv4()] and [new Date().toISOString()] are inputs of the handler;
    - the socket server is the list of connected sockets, each with its room
      set; every emit is logged with the sockets it was delivered to;
    - JSON values on the wire are strings; an absent field is [None], and so
      is a null one wherever the code treats the two alike. The body of
      [PUT /api/greetings/:greeting_id], where it does not, has
      [option (option string)] fields: [None] is absent, [Some None] is
      null. *)

From Stdlib Require Import Ascii.
From stdpp Require Import base strings list gmap pretty.

Open Scope string_scope.
Open Scope list_scope.

(** ** Rows of the store *)

Record UserRow := mkUser {
  u_id : string;
  u_name : string;
  u_email : string;
  u_role : string;
  u_is_active : bool
}.

Record Greeting := mkGreeting {
  g_id : string;
  g_content : option string;
  g_sender_id : string;
  g_recipient_type : string;
  g_recipient_id : string;
  g_status : string;
  g_scheduled_at : option string;
  g_created_at : string;
  g_updated_at : string
}.

Record Notification := mkNotification {
  n_id : string;
  n_user_id : string;
  n_greeting_id : string;
  n_message : string;
  n_read_at : option string;
  n_created_at : string
}.

Record GroupRow := mkGroup {
  gr_id : string;
  gr_name : string;
  gr_privacy_setting : string
}.

Record GroupMember := mkGroupMember {
  gm_id : string;
  gm_group_id : string;
  gm_user_id : string;
  gm_role : string;
  gm_joined_at : string
}.

Record ChatMessage := mkChatMessage {
  m_id : string;
  m_group_id : string;
  m_sender_id : string;
  m_content : string;
  m_created_at : string
}.

Record Db := mkDb {
  Users : list UserRow;
  Greetings : list Greeting;
  Notifications : list Notification;
  Groups : list GroupRow;
  GroupMembers : list GroupMember;
  GroupChatMessages : list ChatMessage
}.

(** ** Sockets, rooms and the emit log *)

Record Socket := mkSocket {
  sock_id : string;
  sock_user : UserRow;
  sock_rooms : gset string
}.

Inductive Payload :=
| PGreeting (g : Greeting)
| PNotification (n : Notification)
| PMessage (m : ChatMessage)
| PMember (gm : GroupMember)
| PModeration (greeting_id action : string)
| PError (message : string).

(** [io.emit], [io.to(room).emit] and [socket.emit]. *)
Inductive Target :=
| ToAll
| ToRoom (room : string)
| ToSocket (sid : string).

Record Emission := mkEmission {
  em_target : Target;
  em_event : string;
  em_payload : Payload;
  em_to : list string
}.

Record World := mkWorld {
  w_db : Db;
  w_sockets : list Socket;
  w_log : list Emission
}.

Definition set_db (d : Db) (w : World) : World :=
  mkWorld d (w_sockets w) (w_log w).
Definition set_sockets (ss : list Socket) (w : World) : World :=
  mkWorld (w_db w) ss (w_log w).
Definition push_log (e : Emission) (w : World) : World :=
  mkWorld (w_db w) (w_sockets w) (w_log w ++ [e]).

(** The ids of the connected sockets. *)
Definition connected (w : World) : list string := sock_id <$> w_sockets w.

(** The sockets currently in a room: the subscriber set of a target. *)
Definition in_room (room : string) (s : Socket) : bool :=
  bool_decide (room ∈ sock_rooms s).
Definition resolve (w : World) (room : string) : list string :=
  sock_id <$> filter (λ s, in_room room s = true) (w_sockets w).

(** Who an emit reaches, given the sockets connected when it is made. *)
Definition recipients (w : World) (t : Target) : list string :=
  match t with
  | ToAll => connected w
  | ToRoom r => resolve w r
  | ToSocket sid => [sid]
  end.

(** ** The handler monad: state plus exceptions

    A thrown exception keeps the effects made before it, as in the source
    where an emit made before a failing [await] is not undone. *)

Inductive Outcome (A : Type) : Type :=
| Done (a : A)
| Thrown (msg : string).
Arguments Done {A} a.
Arguments Thrown {A} msg.

Definition M (A : Type) : Type := World → Outcome A * World.

Definition ret {A} (a : A) : M A := λ w, (Done a, w).
Definition throw {A} (msg : string) : M A := λ w, (Thrown msg, w).
Definition bind {A B} (m : M A) (k : A → M B) : M B :=
  λ w, match m w with
       | (Done a, w') => k a w'
       | (Thrown e, w') => (Thrown e, w')
       end.
Definition try_catch {A} (m : M A) (h : string → M A) : M A :=
  λ w, match m w with
       | (Done a, w') => (Done a, w')
       | (Thrown e, w') => h e w'
       end.

#[global] Instance M_ret : MRet M := @ret.
#[global] Instance M_bind : MBind M := λ A B k m, bind m k.

(** [pool.query]: [f] is the statement, run on the tables when the store
    answers. *)
Definition query {A} (ok : bool) (f : Db → Db * A) : M A :=
  λ w, if ok
       then let '(d, a) := f (w_db w) in (Done a, set_db d w)
       else (Thrown "query failed", w).

Definition emit (t : Target) (event : string) (p : Payload) : M unit :=
  λ w, (Done tt, push_log (mkEmission t event p (recipients w t)) w).

Definition io_emit := emit ToAll.
Definition io_to (room : string) := emit (ToRoom room).
Definition socket_emit (s : Socket) := emit (ToSocket (sock_id s)).

(** A handler always runs to completion: its own catch clause is the last. *)
Definition exec {A} (m : M A) (dflt : A) (w : World) : A * World :=
  match m w with
  | (Done a, w') => (a, w')
  | (Thrown _, w') => (dflt, w')
  end.

(** ** JavaScript helpers *)

(** [!x] for a string-or-undefined value. *)
Definition falsy (x : option string) : bool :=
  match x with
  | None => true
  | Some s => bool_decide (s = "")
  end.

(** [x || d] *)
Definition or_else (x : option string) (d : string) : string :=
  match x with
  | None => d
  | Some s => if bool_decide (s = "") then d else s
  end.

(** [x || null] *)
Definition or_null (x : option string) : option string :=
  match x with
  | None => None
  | Some s => if bool_decide (s = "") then None else Some s
  end.

(** [s.split(' ')] *)
Fixpoint split_space_go (cur : string) (s : string) : list string :=
  match s with
  | EmptyString => [cur]
  | String c rest =>
      if bool_decide (c = " "%char)
      then cur :: split_space_go "" rest
      else split_space_go (cur +:+ String c EmptyString) rest
  end.
Definition split_space (s : string) : list string := split_space_go "" s.

(** ** The auth collaborator *)

Record JwtPayload := mkJwt { jwt_user_id : option string }.

(** [jwt.verify(token, JWT_SECRET)]: [None] when it throws. *)
Record Collab := mkCollab { jwt_verify : string → option JwtPayload }.

(** [SELECT ... FROM Users WHERE id = $1]; a null parameter matches no row. *)
Definition select_user (uid : option string) (d : Db) : list UserRow :=
  match uid with
  | None => []
  | Some i => filter (λ u, u_id u = i) (Users d)
  end.

(** ** WebSocket handlers *)

Inductive ConnectResult :=
| Accepted
| Rejected (err : string).

(** [io.use]: the authentication middleware of the socket server. Yields
    the error handed to [next], or the user row stored in [socket.user]. *)
Definition io_use (E : Collab) (token : option string) (ok : bool)
  : M (string + UserRow) :=
  try_catch
    (if falsy token then ret (inl "Authentication token required")
     else
       match jwt_verify E (default "" token) with
       | None => throw "jwt"
       | Some decoded =>
           rows ← query ok (λ d, (d, select_user (jwt_user_id decoded) d));
           match rows with
           | [] => mret (inl "Invalid token")
           | u :: _ => mret (inr u)
           end
       end)
    (λ _, mret (inl "Authentication failed")).

(** [io.on('connection')]: the socket enters the room named after its user.
    socket.io itself has put it in the room named after the socket. *)
Definition on_connection (sid : string) (u : UserRow) (w : World) : World :=
  set_sockets (w_sockets w ++ [mkSocket sid u ({[ sid ]} ∪ {[ u_id u ]})]) w.

Definition on_connect (E : Collab) (token : option string) (sid : string)
    (ok : bool) (w : World) : ConnectResult * World :=
  match exec (io_use E token ok) (inl "Authentication failed") w with
  | (inl err, w') => (Rejected err, w')
  | (inr u, w') => (Accepted, on_connection sid u w')
  end.

(** The socket leaves the server, and with that all its rooms. *)
Definition disconnect (sid : string) (w : World) : World :=
  set_sockets (filter (λ s, sock_id s ≠ sid) (w_sockets w)) w.

Definition find_socket (sid : string) (w : World) : option Socket :=
  head (filter (λ s, sock_id s = sid) (w_sockets w)).

Definition update_rooms (sid : string) (f : gset string → gset string)
    (w : World) : World :=
  set_sockets
    ((λ s, if bool_decide (sock_id s = sid)
           then mkSocket (sock_id s) (sock_user s) (f (sock_rooms s))
           else s) <$> w_sockets w) w.

(** [socket.on('join_group')] *)
Definition join_group (sid : string) (group_id : string) (w : World) : World :=
  update_rooms sid (λ rooms, rooms ∪ {[ group_id ]}) w.

(** [socket.on('leave_group')] *)
Definition leave_group (sid : string) (group_id : string) (w : World) : World :=
  update_rooms sid (λ rooms, rooms ∖ {[ group_id ]}) w.

(** A handler registered on a socket runs only for a connected socket. *)
Definition on_socket (sid : string) (h : Socket → M unit) (w : World) : World :=
  match find_socket sid w with
  | None => w
  | Some s => snd (exec (h s) tt w)
  end.

(** ** Statements run by the handlers *)

(** [UPDATE t SET ... WHERE p RETURNING *] on one table. *)
Definition update_where {A} (p : A → bool) (f : A → A) (rows : list A)
  : list A * list A :=
  ((λ r, if p r then f r else r) <$> rows, f <$> filter (λ r, p r = true) rows).

Definition with_status (st now : string) (g : Greeting) : Greeting :=
  mkGreeting (g_id g) (g_content g) (g_sender_id g) (g_recipient_type g)
    (g_recipient_id g) st (g_scheduled_at g) (g_created_at g) now.

Definition with_read_at (v : string) (n : Notification) : Notification :=
  mkNotification (n_id n) (n_user_id n) (n_greeting_id n) (n_message n)
    (Some v) (n_created_at n).

Definition set_greetings (gs : list Greeting) (d : Db) : Db :=
  mkDb (Users d) gs (Notifications d) (Groups d) (GroupMembers d)
    (GroupChatMessages d).
Definition set_notifications (ns : list Notification) (d : Db) : Db :=
  mkDb (Users d) (Greetings d) ns (Groups d) (GroupMembers d)
    (GroupChatMessages d).
Definition set_members (ms : list GroupMember) (d : Db) : Db :=
  mkDb (Users d) (Greetings d) (Notifications d) (Groups d) ms
    (GroupChatMessages d).
Definition set_messages (ms : list ChatMessage) (d : Db) : Db :=
  mkDb (Users d) (Greetings d) (Notifications d) (Groups d) (GroupMembers d)
    ms.

(** [INSERT INTO Greetings ... RETURNING *] *)
Definition insert_greeting (g : Greeting) (d : Db) : Db * Greeting :=
  (set_greetings (Greetings d ++ [g]) d, g).

(** [INSERT INTO Notifications ...] *)
Definition insert_notification (n : Notification) (d : Db) : Db * unit :=
  (set_notifications (Notifications d ++ [n]) d, tt).

(** [INSERT INTO GroupMembers ... RETURNING *] *)
Definition insert_member (gm : GroupMember) (d : Db) : Db * GroupMember :=
  (set_members (GroupMembers d ++ [gm]) d, gm).

(** [INSERT INTO GroupChatMessages ... RETURNING *] *)
Definition insert_chat_message (m : ChatMessage) (d : Db) : Db * ChatMessage :=
  (set_messages (GroupChatMessages d ++ [m]) d, m).

(** [UPDATE Greetings SET status = $1, updated_at = $2 WHERE id = $3
    RETURNING *] *)
Definition update_status_sql (st now gid : string) (d : Db)
  : Db * list Greeting :=
  let '(gs, rows) :=
    update_where (λ g, bool_decide (g_id g = gid)) (with_status st now)
      (Greetings d) in
  (set_greetings gs d, rows).

(** [UPDATE Greetings SET status = $1 WHERE id = $2] *)
Definition approve_sql (gid : string) (d : Db) : Db * unit :=
  (set_greetings
     (fst (update_where (λ g, bool_decide (g_id g = gid))
             (λ g, with_status "sent" (g_updated_at g) g) (Greetings d))) d,
   tt).

(** [DELETE FROM Greetings WHERE id = $1] *)
Definition delete_greeting_sql (gid : string) (d : Db) : Db * unit :=
  (set_greetings (filter (λ g, g_id g ≠ gid) (Greetings d)) d, tt).

(** [UPDATE Notifications SET read_at = $1 WHERE id = $2 AND user_id = $3
    RETURNING *] *)
Definition mark_read_sql (v nid uid : string) (d : Db)
  : Db * list Notification :=
  let '(ns, rows) :=
    update_where
      (λ n, bool_decide (n_id n = nid) && bool_decide (n_user_id n = uid))
      (with_read_at v) (Notifications d) in
  (set_notifications ns d, rows).

(** ** zod schemas *)

Definition status_enum (s : string) : bool :=
  bool_decide (s ∈ ["sent"; "pending"; "delivered"; "failed"]).

Definition role_enum (s : string) : bool :=
  bool_decide (s ∈ ["admin"; "member"]).

Record RawChatMessage := mkRawChat {
  rm_id : option string;
  rm_group_id : option string;
  rm_sender_id : option string;
  rm_content : option string
}.

Record ChatInput := mkChatInput {
  ci_id : string;
  ci_group_id : string;
  ci_sender_id : string;
  ci_content : string
}.

Definition createGroupChatMessageInputSchema (b : RawChatMessage)
  : option ChatInput :=
  i ← rm_id b; g ← rm_group_id b; s ← rm_sender_id b; c ← rm_content b;
  if bool_decide (1 ≤ String.length c)%nat then Some (mkChatInput i g s c)
  else None.

Record RawGreeting := mkRawGreeting {
  rg_id : option string;
  rg_content : option string;
  rg_sender_id : option string;
  rg_recipient_type : option string;
  rg_recipient_id : option string;
  rg_status : option string;
  rg_scheduled_at : option string
}.

Record CreateGreetingInput := mkCreateGreeting {
  cg_id : string;
  cg_content : option string;
  cg_sender_id : string;
  cg_recipient_type : string;
  cg_recipient_id : string;
  cg_status : string;
  cg_scheduled_at : option string
}.

Definition createGreetingInputSchema (b : RawGreeting)
  : option CreateGreetingInput :=
  i ← rg_id b; s ← rg_sender_id b; rt ← rg_recipient_type b;
  ri ← rg_recipient_id b; st ← rg_status b;
  if status_enum st
  then Some (mkCreateGreeting i (rg_content b) s rt ri st (rg_scheduled_at b))
  else None.

(** The body of an update; the [id] of the schema is the path parameter,
    a string always. For every field [None] is an absent field and
    [Some None] is null. *)
Record RawGreetingUpdate := mkRawUpdate {
  ru_content : option (option string);
  ru_sender_id : option (option string);
  ru_recipient_type : option (option string);
  ru_recipient_id : option (option string);
  ru_status : option (option string);
  ru_scheduled_at : option (option string)
}.

(** The fields of the parsed update that the handler reads: [content] and
    [scheduled_at] may be absent, null or a value, [status] is absent or a
    string. *)
Record UpdateGreetingInput := mkUpdateGreeting {
  ug_content : option (option string);
  ug_status : option string;
  ug_scheduled_at : option (option string)
}.

(** [z.string().optional()]: an absent field and a string pass, null does
    not. *)
Definition optional_string (f : option (option string))
  : option (option string) :=
  match f with
  | None => Some None
  | Some (Some v) => Some (Some v)
  | Some None => None
  end.

Definition updateGreetingInputSchema (b : RawGreetingUpdate)
  : option UpdateGreetingInput :=
  _ ← optional_string (ru_sender_id b);
  _ ← optional_string (ru_recipient_type b);
  _ ← optional_string (ru_recipient_id b);
  st ← optional_string (ru_status b);
  if match st with Some v => status_enum v | None => true end
  then Some (mkUpdateGreeting (ru_content b) st (ru_scheduled_at b))
  else None.

Record RawMember := mkRawMember {
  rmb_id : option string;
  rmb_user_id : option string;
  rmb_role : option string
}.

Record MemberInput := mkMemberInput {
  mi_id : string;
  mi_user_id : string;
  mi_role : string
}.

Definition createGroupMemberInputSchema (b : RawMember) : option MemberInput :=
  i ← rmb_id b; u ← rmb_user_id b; r ← rmb_role b;
  if role_enum r then Some (mkMemberInput i u r) else None.

(** ** WebSocket handlers that write to the store *)

(** [socket.on('send_group_message')] *)
Definition send_group_message (data : RawChatMessage) (now uuid : string)
    (ok : bool) (s : Socket) : M unit :=
  try_catch
    (match createGroupChatMessageInputSchema data with
     | None => socket_emit s "error" (PError "Validation error")
     | Some v =>
         let messageId := or_else (Some (ci_id v)) uuid in
         message ← query ok
           (insert_chat_message
              (mkChatMessage messageId (ci_group_id v) (ci_sender_id v)
                 (ci_content v) now));
         io_to (ci_group_id v) "group_message" (PMessage message)
     end)
    (λ _, socket_emit s "error" (PError "Failed to send message")).

Record StatusUpdate := mkStatusUpdate {
  su_greeting_id : string;
  su_status : string
}.

(** [socket.on('update_greeting_status')]. [Some d] is a payload object
    with both fields strings; [None] is a call whose payload is undefined or
    null, where the destructuring throws. *)
Definition update_greeting_status (data : option StatusUpdate) (now : string)
    (ok : bool) (s : Socket) : M unit :=
  try_catch
    (match data with
     | None => throw "TypeError"
     | Some d =>
         rows ← query ok
           (update_status_sql (su_status d) now (su_greeting_id d));
         match rows with
         | greeting :: _ =>
             io_emit ("greeting_" +:+ su_greeting_id d +:+ "_status")
               (PGreeting greeting)
         | [] => mret tt
         end
     end)
    (λ _, socket_emit s "error" (PError "Failed to update greeting status")).

Record ModerationData := mkModeration {
  md_greeting_id : string;
  md_action : string
}.

(** [socket.on('admin_moderate')]. [Some d] is a payload object with both
    fields strings; [None] is a call whose payload is undefined or null. *)
Definition admin_moderate (data : option ModerationData) (ok : bool)
    (s : Socket) : M unit :=
  try_catch
    (if bool_decide (u_role (sock_user s) ≠ "admin")
     then socket_emit s "error" (PError "Admin access required")
     else
       match data with
       | None => throw "TypeError"
       | Some d =>
           (if bool_decide (md_action d = "deleted")
            then query ok (delete_greeting_sql (md_greeting_id d))
            else if bool_decide (md_action d = "approved")
            then query ok (approve_sql (md_greeting_id d))
            else mret tt);;
           io_emit "admin_moderation_action"
             (PModeration (md_greeting_id d) (md_action d))
       end)
    (λ _, socket_emit s "error" (PError "Moderation action failed")).

(** ** HTTP write path *)

Inductive Body :=
| BGreeting (g : Greeting)
| BNotification (n : Notification)
| BMember (gm : GroupMember)
| BError (message error_code : string).

Record HttpResponse := mkResp {
  res_status : nat;
  res_body : Body
}.

Definition internal_error : HttpResponse :=
  mkResp 500 (BError "Internal server error" "INTERNAL_SERVER_ERROR").
Definition validation_error : HttpResponse :=
  mkResp 400 (BError "Validation error" "VALIDATION_ERROR").

(** [authHeader && authHeader.split(' ')[1]] *)
Definition bearer_token (authHeader : option string) : option string :=
  match authHeader with
  | None => None
  | Some h => if bool_decide (h = "") then Some "" else split_space h !! 1%nat
  end.

(** [authenticateToken]: the response it ends the request with, or the row
    it stores in [req.user] before calling [next]. *)
Definition authenticateToken (E : Collab) (authHeader : option string)
    (ok : bool) : M (HttpResponse + UserRow) :=
  let token := bearer_token authHeader in
  if falsy token
  then mret (inl (mkResp 401
                    (BError "Access token required" "AUTH_TOKEN_REQUIRED")))
  else
    try_catch
      (match jwt_verify E (default "" token) with
       | None => throw "jwt"
       | Some decoded =>
           rows ← query ok (λ d, (d, select_user (jwt_user_id decoded) d));
           match rows with
           | [] => mret (inl (mkResp 401
                               (BError "Invalid token" "AUTH_TOKEN_INVALID")))
           | u :: _ => mret (inr u)
           end
       end)
      (λ _, mret (inl (mkResp 403
                         (BError "Invalid or expired token"
                            "AUTH_TOKEN_INVALID")))).

(** [app.<verb>(path, authenticateToken, handler)] *)
Definition route (E : Collab) (authHeader : option string) (ok : bool)
    (handler : UserRow → M HttpResponse) (w : World) : HttpResponse * World :=
  exec (r ← authenticateToken E authHeader ok;
        match r with
        | inl resp => mret resp
        | inr user => handler user
        end) internal_error w.

(** The row [POST /api/greetings] inserts: the parameters of its INSERT. *)
Definition greeting_row (v : CreateGreetingInput) (now uuid1 : string)
  : Greeting :=
  mkGreeting (or_else (Some (cg_id v)) uuid1) (cg_content v) (cg_sender_id v)
    (cg_recipient_type v) (cg_recipient_id v) (cg_status v)
    (or_null (cg_scheduled_at v)) now now.

(** The notification it inserts for a user recipient. *)
Definition notification_row (v : CreateGreetingInput) (now uuid1 uuid2 : string)
  : Notification :=
  mkNotification uuid2 (cg_recipient_id v) (or_else (Some (cg_id v)) uuid1)
    "You received a new greeting!" None now.

(** [POST /api/greetings] *)
Definition post_greetings_handler (body : RawGreeting)
    (now uuid1 uuid2 : string) (ok_greeting ok_notification : bool)
    (user : UserRow) : M HttpResponse :=
  try_catch
    (match createGreetingInputSchema body with
     | None => mret validation_error
     | Some v =>
         greeting ← query ok_greeting
           (insert_greeting (greeting_row v now uuid1));
         io_emit "greeting_created" (PGreeting greeting);;
         (if bool_decide (cg_recipient_type v = "user")
          then
            let n := notification_row v now uuid1 uuid2 in
            query ok_notification (insert_notification n);;
            io_to (cg_recipient_id v) "notification" (PNotification n)
          else mret tt);;
         mret (mkResp 201 (BGreeting greeting))
     end)
    (λ _, mret internal_error).

Definition post_greetings (E : Collab) (authHeader : option string)
    (body : RawGreeting) (now uuid1 uuid2 : string)
    (ok_auth ok_greeting ok_notification : bool) : World → HttpResponse * World :=
  route E authHeader ok_auth
    (post_greetings_handler body now uuid1 uuid2 ok_greeting ok_notification).

(** The [SET] list that [PUT /api/greetings/:greeting_id] builds: a field
    is written when it is [!== undefined], null included. *)
Definition apply_update (v : UpdateGreetingInput) (now : string) (g : Greeting)
  : Greeting :=
  mkGreeting (g_id g)
    (match ug_content v with Some c => c | None => g_content g end)
    (g_sender_id g) (g_recipient_type g) (g_recipient_id g)
    (match ug_status v with Some st => st | None => g_status g end)
    (match ug_scheduled_at v with Some t => t | None => g_scheduled_at g end)
    (g_created_at g) now.

Definition put_greeting_sql (v : UpdateGreetingInput) (now gid : string)
    (d : Db) : Db * list Greeting :=
  let '(gs, rows) :=
    update_where (λ g, bool_decide (g_id g = gid)) (apply_update v now)
      (Greetings d) in
  (set_greetings gs d, rows).

(** [PUT /api/greetings/:greeting_id] *)
Definition put_greeting_handler (greeting_id : string)
    (body : RawGreetingUpdate) (now : string) (ok : bool) (user : UserRow)
  : M HttpResponse :=
  try_catch
    (match updateGreetingInputSchema body with
     | None => mret validation_error
     | Some v =>
         rows ← query ok (put_greeting_sql v now greeting_id);
         match rows with
         | [] => mret (mkResp 404
                         (BError "Greeting not found" "GREETING_NOT_FOUND"))
         | greeting :: _ =>
             io_emit ("greeting_" +:+ greeting_id +:+ "_updated")
               (PGreeting greeting);;
             mret (mkResp 200 (BGreeting greeting))
         end
     end)
    (λ _, mret internal_error).

Definition put_greeting (E : Collab) (authHeader : option string)
    (greeting_id : string) (body : RawGreetingUpdate) (now : string)
    (ok_auth ok : bool) : World → HttpResponse * World :=
  route E authHeader ok_auth (put_greeting_handler greeting_id body now ok).

(** [POST /api/groups/:group_id/members] *)
Definition post_group_member_handler (group_id : string) (body : RawMember)
    (now uuid : string) (ok_group ok_user ok_insert : bool) (user : UserRow)
  : M HttpResponse :=
  try_catch
    (match createGroupMemberInputSchema body with
     | None => mret validation_error
     | Some v =>
         groupCheck ← query ok_group
           (λ d, (d, filter (λ g, gr_id g = group_id) (Groups d)));
         match groupCheck with
         | [] => mret (mkResp 404 (BError "Group not found" "GROUP_NOT_FOUND"))
         | _ :: _ =>
             userCheck ← query ok_user
               (λ d, (d, select_user (Some (mi_user_id v)) d));
             match userCheck with
             | [] => mret (mkResp 404 (BError "User not found" "USER_NOT_FOUND"))
             | _ :: _ =>
                 let memberId := or_else (Some (mi_id v)) uuid in
                 member ← query ok_insert
                   (insert_member
                      (mkGroupMember memberId group_id (mi_user_id v)
                         (mi_role v) now));
                 io_to group_id "member_joined" (PMember member);;
                 mret (mkResp 201 (BMember member))
             end
         end
     end)
    (λ _, mret internal_error).

Definition post_group_member (E : Collab) (authHeader : option string)
    (group_id : string) (body : RawMember) (now uuid : string)
    (ok_auth ok_group ok_user ok_insert : bool) : World → HttpResponse * World :=
  route E authHeader ok_auth
    (post_group_member_handler group_id body now uuid ok_group ok_user
       ok_insert).

(** [POST /api/notifications/:notification_id/mark-read] *)
Definition mark_read_handler (notification_id : string)
    (read_at : option string) (now : string) (ok : bool) (user : UserRow)
  : M HttpResponse :=
  try_catch
    (rows ← query ok
       (mark_read_sql (or_else read_at now) notification_id (u_id user));
     match rows with
     | [] => mret (mkResp 404
                     (BError "Notification not found" "NOTIFICATION_NOT_FOUND"))
     | n :: _ => mret (mkResp 200 (BNotification n))
     end)
    (λ _, mret internal_error).

Definition mark_read (E : Collab) (authHeader : option string)
    (notification_id : string) (read_at : option string) (now : string)
    (ok_auth ok : bool) : World → HttpResponse * World :=
  route E authHeader ok_auth (mark_read_handler notification_id read_at now ok).

(** ** The operations of the subsystem as one transition function *)

Inductive Op :=
| OnConnect (token : option string) (sid : string) (ok : bool)
| Disconnect (sid : string)
| JoinGroup (sid group_id : string)
| LeaveGroup (sid group_id : string)
| SendGroupMessage (sid : string) (data : RawChatMessage) (now uuid : string)
    (ok : bool)
| UpdateGreetingStatus (sid : string) (data : option StatusUpdate)
    (now : string) (ok : bool)
| AdminModerate (sid : string) (data : option ModerationData) (ok : bool)
| PostGreetings (authHeader : option string) (body : RawGreeting)
    (now uuid1 uuid2 : string) (ok_auth ok_greeting ok_notification : bool)
| PutGreeting (authHeader : option string) (greeting_id : string)
    (body : RawGreetingUpdate) (now : string) (ok_auth ok : bool)
| PostGroupMember (authHeader : option string) (group_id : string)
    (body : RawMember) (now uuid : string)
    (ok_auth ok_group ok_user ok_insert : bool)
| MarkRead (authHeader : option string) (notification_id : string)
    (read_at : option string) (now : string) (ok_auth ok : bool).

Definition step (E : Collab) (op : Op) (w : World) : World :=
  match op with
  | OnConnect token sid ok => snd (on_connect E token sid ok w)
  | Disconnect sid => disconnect sid w
  | JoinGroup sid g => join_group sid g w
  | LeaveGroup sid g => leave_group sid g w
  | SendGroupMessage sid data now uuid ok =>
      on_socket sid (send_group_message data now uuid ok) w
  | UpdateGreetingStatus sid data now ok =>
      on_socket sid (update_greeting_status data now ok) w
  | AdminModerate sid data ok => on_socket sid (admin_moderate data ok) w
  | PostGreetings a body now u1 u2 oa og on =>
      snd (post_greetings E a body now u1 u2 oa og on w)
  | PutGreeting a gid body now oa ok => snd (put_greeting E a gid body now oa ok w)
  | PostGroupMember a gid body now u oa o1 o2 o3 =>
      snd (post_group_member E a gid body now u oa o1 o2 o3 w)
  | MarkRead a nid r now oa ok => snd (mark_read E a nid r now oa ok w)
  end.

Definition run (E : Collab) (ops : list Op) (w : World) : World :=
  foldl (λ w op, step E op w) w ops.

(** What a connection has observed: the logged emits delivered to it. *)
Definition observed (c : string) (log : list Emission) : list Emission :=
  filter (λ em, c ∈ em_to em) log.

(** The emits made between two worlds of one execution. *)
Definition emitted (w w' : World) : list Emission :=
  drop (length (w_log w)) (w_log w').

(** ** A sample deployment: the seed data of the test suite *)

Module Sample.

(** Tokens of the form [t:<user id>] verify; every other token throws. *)
Definition collab : Collab :=
  mkCollab (λ t, match t with
                 | String "t" (String ":" uid) => Some (mkJwt (Some uid))
                 | _ => None
                 end).

Definition user1 := mkUser "user1" "Alice Smith" "alice@example.com" "user" true.
Definition user2 := mkUser "user2" "Bob Johnson" "bob@example.com" "user" true.
Definition admin1 := mkUser "admin1" "Admin User" "admin@example.com" "admin" true.
Definition user3 := mkUser "user3" "Charlie Brown" "charlie@example.com" "user" false.

Definition greet1 :=
  mkGreeting "greet1" (Some "{text: Happy Birthday!}") "user1" "user" "user2"
    "sent" None "2023-10-05T11:00:00Z" "2023-10-05T11:00:00Z".
Definition greet2 :=
  mkGreeting "greet2" (Some "{text: Merry Christmas!}") "user1" "group"
    "group1" "pending" (Some "2023-12-25T09:00:00Z") "2023-10-05T11:05:00Z"
    "2023-10-05T11:05:00Z".
Definition greet3 :=
  mkGreeting "greet3" (Some "{text: Welcome aboard!}") "admin1" "user" "user3"
    "delivered" None "2023-10-05T11:10:00Z" "2023-10-05T11:10:00Z".
Definition greet4 :=
  mkGreeting "greet4" (Some "{text: Good morning!}") "user2" "group" "group2"
    "failed" None "2023-10-05T11:15:00Z" "2023-10-05T11:15:00Z".

Definition db : Db :=
  mkDb [user1; user2; admin1; user3]
    [greet1; greet2; greet3; greet4]
    []
    [mkGroup "group1" "Friends Circle" "private";
     mkGroup "group2" "Work Team" "public";
     mkGroup "group3" "Book Lovers" "public"]
    [mkGroupMember "gm1" "group1" "user1" "admin" "2023-10-05T10:31:00Z";
     mkGroupMember "gm2" "group1" "user2" "member" "2023-10-05T10:32:00Z";
     mkGroupMember "gm3" "group2" "user1" "member" "2023-10-05T10:36:00Z";
     mkGroupMember "gm4" "group2" "admin1" "admin" "2023-10-05T10:37:00Z";
     mkGroupMember "gm5" "group3" "user3" "member" "2023-10-05T10:41:00Z"]
    [].

Definition boot : World := mkWorld db [] [].

(** user1 on one device, user2 on two, user3 on one. *)
Definition online : World :=
  run collab
    [OnConnect (Some "t:user1") "s1" true;
     OnConnect (Some "t:user2") "s2" true;
     OnConnect (Some "t:user2") "s3" true;
     OnConnect (Some "t:user3") "s4" true] boot.

(** Chat traffic of group1: a message of user1, then admin1 is added. *)
Definition hello : RawChatMessage :=
  mkRawChat (Some "msg5") (Some "group1") (Some "user1") (Some "hello").
Definition traffic : list Op :=
  [SendGroupMessage "s1" hello "2023-10-06T09:00:00Z" "uuid-1" true;
   PostGroupMember (Some "Bearer t:user1") "group1"
     (mkRawMember (Some "gm6") (Some "admin1") (Some "member"))
     "2023-10-06T09:01:00Z" "uuid-2" true true true true].


(** user1 reports greet1 (user1 to user2) as delivered. *)
Definition deliver_greet1 : Op :=
  UpdateGreetingStatus "s1" (Some (mkStatusUpdate "greet1" "delivered"))
    "2023-10-06T10:00:00Z" true.

(** The event that [deliver_greet1] emits when everybody is online. *)
Definition delivered_event : Emission :=
  mkEmission ToAll "greeting_greet1_status"
    (PGreeting (with_status "delivered" "2023-10-06T10:00:00Z" greet1))
    ["s1"; "s2"; "s3"; "s4"].

(** user1 sets greet3, which is stored as delivered, back to pending. *)
Definition reopen_greet3 : Op :=
  UpdateGreetingStatus "s1" (Some (mkStatusUpdate "greet3" "pending"))
    "2023-10-06T10:00:00Z" true.

(** user1 sends a greeting to user2, unscheduled, and declares it
    delivered. *)
Definition card : RawGreeting :=
  mkRawGreeting (Some "greet5") (Some "{text: Get well soon!}") (Some "user1")
    (Some "user") (Some "user2") (Some "delivered") None.

(** The same to be sent in 2030, declared sent. *)
Definition scheduled_card : RawGreeting :=
  mkRawGreeting (Some "greet6") (Some "{text: Happy 2030!}") (Some "user1")
    (Some "user") (Some "user2") (Some "sent") (Some "2030-01-01T00:00:00Z").

Definition post_card (body : RawGreeting) (ok_notification : bool) : Op :=
  PostGreetings (Some "Bearer t:user1") body "2023-10-06T12:00:00Z" "uuid-g"
    "uuid-n" true true ok_notification.

(** user2 reads the notification of [card], twice. *)
Definition notified : World := step collab (post_card card true) online.
Definition read_once : World :=
  step collab
    (MarkRead (Some "Bearer t:user2") "uuid-n" (Some "2023-10-07T08:00:00Z")
       "2023-10-07T08:00:01Z" true true) notified.
Definition read_twice : World :=
  step collab
    (MarkRead (Some "Bearer t:user2") "uuid-n" None
       "2023-10-08T09:30:00Z" true true) read_once.

End Sample.

(** ** The delete routes

    They answer 204 with an empty body, which is not a JSON response. *)

Inductive Reply :=
| Json (r : HttpResponse)
| NoContent.

(** [app.delete(path, authenticateToken, handler)] *)
Definition route_reply (E : Collab) (authHeader : option string) (ok : bool)
    (handler : UserRow → M Reply) (w : World) : Reply * World :=
  exec (r ← authenticateToken E authHeader ok;
        match r with
        | inl resp => mret (Json resp)
        | inr user => handler user
        end) (Json internal_error) w.

Definition set_users (us : list UserRow) (d : Db) : Db :=
  mkDb us (Greetings d) (Notifications d) (Groups d) (GroupMembers d)
    (GroupChatMessages d).

(** [DELETE FROM Users WHERE id = $1 RETURNING id] *)
Definition delete_user_sql (uid : string) (d : Db) : Db * list string :=
  (set_users (filter (λ u, u_id u ≠ uid) (Users d)) d,
   u_id <$> filter (λ u, u_id u = uid) (Users d)).

(** [DELETE /api/users/:user_id] *)
Definition delete_user_handler (user_id : string) (ok : bool) (user : UserRow)
  : M Reply :=
  try_catch
    (rows ← query ok (delete_user_sql user_id);
     match rows with
     | [] => mret (Json (mkResp 404 (BError "User not found" "USER_NOT_FOUND")))
     | _ :: _ => mret NoContent
     end)
    (λ _, mret (Json internal_error)).

Definition delete_user (E : Collab) (authHeader : option string)
    (user_id : string) (ok_auth ok : bool) : World → Reply * World :=
  route_reply E authHeader ok_auth (delete_user_handler user_id ok).






(** ** The query of [GET /api/greetings]

    The route builds the text of a parameterised statement and the list of
    its parameters side by side, numbering the placeholders with a counter.
    It is registered without [authenticateToken], and no other middleware
    sets [req.user]. *)

(** The argument of [Number(...)]: a default of the destructuring, or the
    string of the query. *)
Inductive NumArg :=
| NumDefault (n : nat)
| NumOfString (s : string).

Inductive SqlParam :=
| PText (s : string)
| PNumber (a : NumArg).

Record GreetingsQuery := mkGreetingsQuery {
  q_tab : option string;
  q_recipient_id : option string;
  q_date_min : option string;
  q_date_max : option string;
  q_search_query : option string;
  q_limit : option string;
  q_offset : option string;
  q_sort_by : option string;
  q_sort_order : option string
}.

(** [queryText], [queryParams], [paramCounter] *)
Definition Builder : Type := string * list SqlParam * nat.

(** [if (cond) { queryText += ` AND <clause> $${paramCounter++}`;
    queryParams.push(v); }] *)
Definition add_filter (cond : bool) (clause : string) (v : SqlParam)
    (b : Builder) : Builder :=
  let '(text, params, counter) := b in
  if cond
  then (text +:+ " AND " +:+ clause +:+ " $" +:+ pretty counter,
        params ++ [v], S counter)
  else b.

(** [x = d] in a destructuring pattern. *)
Definition or_default (x : option string) (d : string) : string :=
  match x with
  | None => d
  | Some s => s
  end.

Definition num_arg (x : option string) (d : nat) : NumArg :=
  match x with
  | None => NumDefault d
  | Some s => NumOfString s
  end.

Definition greetings_select : string :=
  "SELECT id, content, sender_id, recipient_type, recipient_id, status, scheduled_at, created_at, updated_at FROM Greetings WHERE 1=1".

Definition list_greetings_query (req_user : option UserRow) (q : GreetingsQuery)
  : string * list SqlParam :=
  let uid := default "" (u_id <$> req_user) in
  let b0 : Builder := (greetings_select, [], 1%nat) in
  let b1 := add_filter (bool_decide (q_tab q = Some "sent") && bool_decide (is_Some req_user))
              "sender_id =" (PText uid) b0 in
  let b2 := add_filter (bool_decide (q_tab q = Some "received") && bool_decide (is_Some req_user))
              "recipient_id =" (PText uid) b1 in
  let b3 := add_filter (bool_decide (q_tab q = Some "drafts"))
              "status =" (PText "pending") b2 in
  let b4 := add_filter (negb (falsy (q_recipient_id q)))
              "recipient_id =" (PText (default "" (q_recipient_id q))) b3 in
  let b5 := add_filter (negb (falsy (q_date_min q)))
              "created_at >=" (PText (default "" (q_date_min q))) b4 in
  let b6 := add_filter (negb (falsy (q_date_max q)))
              "created_at <=" (PText (default "" (q_date_max q))) b5 in
  let b7 := add_filter (negb (falsy (q_search_query q)))
              "content::text ILIKE"
              (PText ("%" +:+ default "" (q_search_query q) +:+ "%")) b6 in
  let '(text, params, counter) := b7 in
  (text +:+ " ORDER BY " +:+ or_default (q_sort_by q) "created_at" +:+ " "
     +:+ or_default (q_sort_order q) "desc"
     +:+ " LIMIT $" +:+ pretty counter +:+ " OFFSET $" +:+ pretty (S counter),
   params ++ [PNumber (num_arg (q_limit q) 10); PNumber (num_arg (q_offset q) 0)]).

(** The query the route runs: [req.user] is undefined there. *)
Definition get_greetings_query (q : GreetingsQuery) : string * list SqlParam :=
  list_greetings_query None q.

(** ** The client store

    The slices of the zustand store that the realtime listeners and the
    notification actions write; every other field is carried over by the
    spread of the old state. A listener is a function of the event it is run
    on; the connection of the store's socket to the server is not modelled. *)

Record ClientState := mkClient {
  cs_greetings : list Greeting;
  cs_members : list GroupMember;
  cs_messages : list ChatMessage;
  cs_notifications : list Notification;
  cs_unread_count : Z;
  cs_reported_greetings : list Greeting
}.

(** [array.findIndex(p)]; [None] is -1. *)
Fixpoint findIndex {A} (p : A → bool) (l : list A) : option nat :=
  match l with
  | [] => None
  | x :: l' => if p x then Some 0%nat else S <$> findIndex p l'
  end.

Definition set_cs_greetings (gs : list Greeting) (st : ClientState) :=
  mkClient gs (cs_members st) (cs_messages st) (cs_notifications st)
    (cs_unread_count st) (cs_reported_greetings st).

(** The listeners registered by [setupRealtimeListeners], by event name. *)
Definition client_on (event : string) (p : Payload) (st : ClientState)
  : ClientState :=
  match p with
  | PGreeting greeting =>
      if bool_decide (event = "greeting_created")
      then set_cs_greetings (greeting :: cs_greetings st) st
      else if bool_decide (event = "greeting_status_updated")
      then
        match findIndex (λ g, bool_decide (g_id g = g_id greeting))
                (cs_greetings st) with
        | Some index => set_cs_greetings (<[index := greeting]> (cs_greetings st)) st
        | None => st
        end
      else st
  | PMessage message =>
      if bool_decide (event = "group_message")
      then mkClient (cs_greetings st) (cs_members st)
             (cs_messages st ++ [message]) (cs_notifications st)
             (cs_unread_count st) (cs_reported_greetings st)
      else st
  | PMember member =>
      if bool_decide (event = "member_joined")
      then mkClient (cs_greetings st) (cs_members st ++ [member])
             (cs_messages st) (cs_notifications st) (cs_unread_count st)
             (cs_reported_greetings st)
      else st
  | PModeration greeting_id action =>
      if bool_decide (event = "admin_moderation_action")
         && bool_decide (action = "deleted")
      then mkClient (cs_greetings st) (cs_members st) (cs_messages st)
             (cs_notifications st) (cs_unread_count st)
             (filter (λ g, g_id g ≠ greeting_id) (cs_reported_greetings st))
      else st
  | PNotification _ | PError _ => st
  end.

(** The success branch of [fetch_notifications]. *)
Definition fetch_notifications_ok (data : list Notification) (st : ClientState)
  : ClientState :=
  mkClient (cs_greetings st) (cs_members st) (cs_messages st) data
    (Z.of_nat (length (filter (λ n, falsy (n_read_at n) = true) data)))
    (cs_reported_greetings st).

(** [mark_notification_read] *)
Definition mark_notification_read (notificationId now : string)
    (st : ClientState) : ClientState :=
  match findIndex (λ n, bool_decide (n_id n = notificationId))
          (cs_notifications st) with
  | Some index =>
      mkClient (cs_greetings st) (cs_members st) (cs_messages st)
        (match cs_notifications st !! index with
         | Some n => <[index := with_read_at now n]> (cs_notifications st)
         | None => cs_notifications st
         end)
        (cs_unread_count st - 1)%Z
        (cs_reported_greetings st)
  | None => st
  end.

(** The number of notifications of the store that are unread. *)
Definition unread (st : ClientState) : Z :=
  Z.of_nat (length (filter (λ n, falsy (n_read_at n) = true)
                      (cs_notifications st))).

(** ** Vocabulary of the properties *)

(** An emit is delivered to the sockets its target resolves to in [w]. *)
Definition dispatched (w : World) (em : Emission) : Prop :=
  em_to em = recipients w (em_target em).

(** [w'] comes from [w] by store writes and emits only: same sockets, and
    every new log entry was resolved against them. *)
Definition extends (w w' : World) : Prop :=
  w_sockets w' = w_sockets w ∧
  ∃ ems, w_log w' = w_log w ++ ems ∧ Forall (dispatched w) ems.

(** A chat message or a new member is announced in the room of its group. *)
Definition room_targeted (em : Emission) : Prop :=
  match em_payload em with
  | PMessage m => em_target em = ToRoom (m_group_id m)
  | PMember gm => em_target em = ToRoom (gm_group_id gm)
  | _ => True
  end.

(** [w'] extends the log of [w] by emits that are all [room_targeted]. *)
Definition targets (w w' : World) : Prop :=
  ∃ ems, w_log w' = w_log w ++ ems ∧ Forall room_targeted ems.

Definition same_notifications (w w' : World) : Prop :=
  Notifications (w_db w') = Notifications (w_db w).

(** A computation whose every run relates its start to its end by [R]. *)
Definition preserves (R : relation World) {A} (m : M A) : Prop :=
  ∀ w, R w (m w).2.

(** Socket [c] is connected and in room [g]. *)
Definition subscribed (w : World) (c g : string) : Prop :=
  ∃ s, s ∈ w_sockets w ∧ sock_id s = c ∧ g ∈ sock_rooms s.

(** [user_id] is a recorded member of [group_id]. *)
Definition is_member (d : Db) (user_id group_id : string) : bool :=
  bool_decide (Exists (λ gm, gm_group_id gm = group_id ∧ gm_user_id gm = user_id)
                 (GroupMembers d)).

(** An operation after which socket [c] is still in room [g]. *)
Definition keeps (c g : string) (op : Op) : Prop :=
  match op with
  | Disconnect sid => sid ≠ c
  | LeaveGroup sid g' => ¬ (sid = c ∧ g' = g)
  | _ => True
  end.

(** Identity resolution through the auth collaborator: the credential is
    present, verifies, and names a row of Users that the store returns. *)
Definition identity_resolves (E : Collab) (token : option string) (ok : bool)
    (d : Db) (u : UserRow) : Prop :=
  ∃ t payload uid,
    token = Some t ∧ t ≠ "" ∧ jwt_verify E t = Some payload ∧
    jwt_user_id payload = Some uid ∧ ok = true ∧
    head (filter (λ r, u_id r = uid) (Users d)) = Some u.

(** The operations that only touch the socket registry. *)
Definition socket_op (op : Op) : bool :=
  match op with
  | OnConnect _ _ _ | Disconnect _ | JoinGroup _ _ | LeaveGroup _ _ => true
  | _ => false
  end.

(** The two operations that announce a status write with an event carrying
    the greeting. Creation and [admin_moderate] with [approved] write a
    status as well; the first announces it as [greeting_created], the second
    as a moderation action. *)
Definition status_change_op (op : Op) : bool :=
  match op with
  | UpdateGreetingStatus _ _ _ _ | PutGreeting _ _ _ _ _ _ => true
  | _ => false
  end.


(** An operation that does not put socket [c] (back) in room [g]. *)
Definition stays_out (c g : string) (op : Op) : Prop :=
  match op with
  | OnConnect _ sid _ => sid ≠ c
  | JoinGroup sid g' => ¬ (sid = c ∧ g' = g)
  | _ => True
  end.

(** Every new log entry of [w'] went to sockets connected in [w]; a reply
    with [socket.emit] is assumed to come from the connected socket [c]. *)
Definition reaches_connected (c : option string) (w w' : World) : Prop :=
  (∀ sid, c = Some sid → sid ∈ connected w) →
  w_sockets w' = w_sockets w ∧
  ∃ ems, w_log w' = w_log w ++ ems ∧
         Forall (λ em, (∀ x, x ∈ em_to em → x ∈ connected w) ∧
                       ∀ sid, em_target em = ToSocket sid → c = Some sid) ems.


Fixpoint has_space (s : string) : bool :=
  match s with
  | EmptyString => false
  | String c rest => bool_decide (c = " "%char) || has_space rest
  end.

(** Every stored greeting has one of the four statuses of the schema. *)
Definition statuses_valid (d : Db) : Prop :=
  Forall (λ g, status_enum (g_status g) = true) (Greetings d).

Definition keeps_valid (w w' : World) : Prop :=
  statuses_valid (w_db w) → statuses_valid (w_db w').

(** ** Further sample data *)

Module Scenes.

(** The admin is online too, as socket s5. *)
Definition moderated : World :=
  run Sample.collab [OnConnect (Some "t:admin1") "s5" true] Sample.online.

(** A chat message without content. *)
Definition empty_message : RawChatMessage :=
  mkRawChat (Some "msg6") (Some "group1") (Some "user1") (Some "").

(** user2, already a member of group1, is added to it again. *)
Definition again : RawMember :=
  mkRawMember (Some "gm7") (Some "user2") (Some "member").

End Scenes.

(** The filter clauses of a statement, numbered from [n]. *)
Fixpoint render_filters (n : nat) (fs : list (string * SqlParam)) : string :=
  match fs with
  | [] => ""
  | (clause, _) :: rest =>
      " AND " +:+ clause +:+ " $" +:+ pretty n +:+ render_filters (S n) rest
  end.

(** The filters of [GET /api/greetings] with their conditions, in the order
    of the source. *)
Definition greetings_conditions (req_user : option UserRow) (q : GreetingsQuery)
  : list (bool * (string * SqlParam)) :=
  let uid := default "" (u_id <$> req_user) in
  [(bool_decide (q_tab q = Some "sent") && bool_decide (is_Some req_user),
    ("sender_id =", PText uid));
   (bool_decide (q_tab q = Some "received") && bool_decide (is_Some req_user),
    ("recipient_id =", PText uid));
   (bool_decide (q_tab q = Some "drafts"), ("status =", PText "pending"));
   (negb (falsy (q_recipient_id q)),
    ("recipient_id =", PText (default "" (q_recipient_id q))));
   (negb (falsy (q_date_min q)),
    ("created_at >=", PText (default "" (q_date_min q))));
   (negb (falsy (q_date_max q)),
    ("created_at <=", PText (default "" (q_date_max q))));
   (negb (falsy (q_search_query q)),
    ("content::text ILIKE",
     PText ("%" +:+ default "" (q_search_query q) +:+ "%")))].

(** The filters whose condition holds. *)
Definition active_filters (l : list (bool * (string * SqlParam)))
  : list (string * SqlParam) :=
  snd <$> filter (λ x, x.1 = true) l.

Definition with_tab (tab : option string) (q : GreetingsQuery) : GreetingsQuery :=
  mkGreetingsQuery tab (q_recipient_id q) (q_date_min q) (q_date_max q)
    (q_search_query q) (q_limit q) (q_offset q) (q_sort_by q) (q_sort_order q).

(** * Properties *)

(** ** The monad *)

Section Preserve.
Context (R : relation World) `{!PreOrder R}.

Lemma preserves_ret {A} (a : A) : preserves R (mret a).
Proof. intros w. simpl. reflexivity. Qed.

Lemma preserves_throw {A} msg : preserves R (@throw A msg).
Proof. intros w. simpl. reflexivity. Qed.

Lemma preserves_bind {A B} (m : M A) (k : A → M B) :
  preserves R m → (∀ a, preserves R (k a)) → preserves R (m ≫= k).
Proof.
  intros Hm Hk w. unfold mbind, M_bind, bind.
  specialize (Hm w). destruct (m w) as [[a|e] w1]; simpl in *; [|done].
  etrans; [exact Hm|apply Hk].
Qed.

Lemma preserves_try_catch {A} (m : M A) (h : string → M A) :
  preserves R m → (∀ e, preserves R (h e)) → preserves R (try_catch m h).
Proof.
  intros Hm Hh w. unfold try_catch.
  specialize (Hm w). destruct (m w) as [[a|e] w1]; simpl in *; [done|].
  etrans; [exact Hm|apply Hh].
Qed.

Lemma preserves_exec {A} (m : M A) (d : A) (w : World) :
  preserves R m → R w (exec m d w).2.
Proof.
  intros Hm. unfold exec. specialize (Hm w).
  by destruct (m w) as [[a|e] w1].
Qed.
End Preserve.

#[local] Instance extends_preorder : PreOrder extends.
Proof.
  split.
  - intros w. split; [done|]. exists []. by rewrite app_nil_r.
  - intros w1 w2 w3 [Hs1 (e1 & Hl1 & Hd1)] [Hs2 (e2 & Hl2 & Hd2)].
    split; [congruence|]. exists (e1 ++ e2). split.
    + by rewrite Hl2, Hl1, app_assoc.
    + apply Forall_app. split; [done|].
      eapply Forall_impl; [exact Hd2|]. intros em. unfold dispatched.
      intros ->. destruct (em_target em); simpl; unfold connected, resolve;
        by rewrite ?Hs1.
Qed.

#[local] Instance same_notifications_preorder : PreOrder same_notifications.
Proof.
  split; [done|]. intros w1 w2 w3. unfold same_notifications. congruence.
Qed.

#[local] Instance targets_preorder : PreOrder targets.
Proof.
  split.
  - intros w. exists []. by rewrite app_nil_r.
  - intros w1 w2 w3 (e1 & Hl1 & Hd1) (e2 & Hl2 & Hd2).
    exists (e1 ++ e2). split; [by rewrite Hl2, Hl1, app_assoc|].
    by apply Forall_app.
Qed.

Lemma query_targets {A} ok (f : Db → Db * A) : preserves targets (query ok f).
Proof.
  intros w. unfold query. destruct ok; [|reflexivity].
  destruct (f (w_db w)) as [d a]. exists []. by rewrite app_nil_r.
Qed.

Lemma emit_targets t ev p :
  (∀ to, room_targeted (mkEmission t ev p to)) → preserves targets (emit t ev p).
Proof.
  intros Hp w. eexists [_]. split; [done|]. by apply Forall_singleton.
Qed.

Lemma query_extends {A} ok (f : Db → Db * A) : preserves extends (query ok f).
Proof.
  intros w. unfold query. destruct ok; [|reflexivity].
  destruct (f (w_db w)) as [d a]. simpl. split; [done|].
  exists []. by rewrite app_nil_r.
Qed.

Lemma emit_extends t ev p : preserves extends (emit t ev p).
Proof.
  intros w. simpl. split; [done|]. eexists [_]. split; [done|].
  by apply Forall_singleton.
Qed.

Lemma query_same_notifications {A} ok (f : Db → Db * A) :
  (∀ d, Notifications (f d).1 = Notifications d) →
  preserves same_notifications (query ok f).
Proof.
  intros Hf w. unfold query. destruct ok; [|reflexivity].
  specialize (Hf (w_db w)). by destruct (f (w_db w)) as [d a].
Qed.

Lemma emit_same_notifications t ev p : preserves same_notifications (emit t ev p).
Proof. by intros w. Qed.

(** One step of a proof that a handler preserves a relation: peel the
    outermost monad combinator or case distinction. *)
Ltac preserve_step :=
  lazymatch goal with
  | |- preserves ?R (mbind _ _) =>
      apply (preserves_bind R); [try done|intros ?]
  | |- preserves ?R (mret _) => apply (preserves_ret R)
  | |- preserves ?R (ret _) => apply (preserves_ret R)
  | |- preserves ?R (throw _) => apply (preserves_throw R)
  | |- preserves ?R (try_catch _ _) =>
      apply (preserves_try_catch R); [try done|intros ?]
  | |- preserves extends (query _ _) => apply query_extends
  | |- preserves extends (emit _ _ _) => apply emit_extends
  | |- preserves extends (io_emit _ _) => apply emit_extends
  | |- preserves extends (io_to _ _ _) => apply emit_extends
  | |- preserves extends (socket_emit _ _ _) => apply emit_extends
  | |- preserves targets (query _ _) => apply query_targets
  | |- preserves targets (emit _ _ _) => apply emit_targets; by intros ?
  | |- preserves targets (io_emit _ _) => apply emit_targets; by intros ?
  | |- preserves targets (io_to _ _ _) => apply emit_targets; by intros ?
  | |- preserves targets (socket_emit _ _ _) => apply emit_targets; by intros ?
  | |- preserves same_notifications (query _ _) =>
      apply query_same_notifications; intros ?; try done
  | |- preserves same_notifications (emit _ _ _) =>
      apply emit_same_notifications
  | |- preserves same_notifications (io_emit _ _) =>
      apply emit_same_notifications
  | |- preserves same_notifications (io_to _ _ _) =>
      apply emit_same_notifications
  | |- preserves same_notifications (socket_emit _ _ _) =>
      apply emit_same_notifications
  | |- preserves _ (match ?x with _ => _ end) => destruct x
  end.
Ltac preserve := repeat (cbv zeta; preserve_step).

(** Unfold the monad down to pairs, then split on every test. *)
Ltac unfold_m :=
  unfold exec, try_catch, mbind, M_bind, bind, mret, M_ret, ret, throw, query,
    io_emit, io_to, socket_emit, emit in *.
Ltac crunch := repeat (case_match; simplify_eq/=).

Lemma io_use_extends E token ok : preserves extends (io_use E token ok).
Proof. unfold io_use. preserve. Qed.

Lemma authenticateToken_extends E a ok :
  preserves extends (authenticateToken E a ok).
Proof. unfold authenticateToken. preserve. Qed.

Lemma send_group_message_extends data now uuid ok s :
  preserves extends (send_group_message data now uuid ok s).
Proof. unfold send_group_message. preserve. Qed.

Lemma update_greeting_status_extends data now ok s :
  preserves extends (update_greeting_status data now ok s).
Proof. unfold update_greeting_status. preserve. Qed.

Lemma admin_moderate_extends data ok s :
  preserves extends (admin_moderate data ok s).
Proof. unfold admin_moderate. preserve. Qed.

Lemma post_greetings_handler_extends body now u1 u2 og on user :
  preserves extends (post_greetings_handler body now u1 u2 og on user).
Proof. unfold post_greetings_handler. preserve. Qed.

Lemma put_greeting_handler_extends gid body now ok user :
  preserves extends (put_greeting_handler gid body now ok user).
Proof. unfold put_greeting_handler. preserve. Qed.

Lemma post_group_member_handler_extends gid body now u o1 o2 o3 user :
  preserves extends (post_group_member_handler gid body now u o1 o2 o3 user).
Proof. unfold post_group_member_handler. preserve. Qed.

Lemma mark_read_handler_extends nid r now ok user :
  preserves extends (mark_read_handler nid r now ok user).
Proof. unfold mark_read_handler. preserve. Qed.

(** ** Steps only append to the log, resolved against the sockets of the
    moment *)

Lemma on_socket_extends sid (h : Socket → M unit) w :
  (∀ s, preserves extends (h s)) → extends w (on_socket sid h w).
Proof.
  intros Hh. unfold on_socket. destruct (find_socket sid w) as [s|].
  - by apply (preserves_exec extends).
  - reflexivity.
Qed.

Lemma route_extends E a ok (h : UserRow → M HttpResponse) w :
  (∀ u, preserves extends (h u)) → extends w (route E a ok h w).2.
Proof.
  intros Hh. unfold route. apply (preserves_exec extends).
  apply (preserves_bind extends); [apply authenticateToken_extends|].
  intros [r|u]; [apply (preserves_ret extends)|apply Hh].
Qed.

Lemma on_connect_log E token sid ok w :
  w_log (on_connect E token sid ok w).2 = w_log w.
Proof.
  unfold on_connect, io_use. unfold_m. crunch; done.
Qed.

Lemma on_connect_sockets E token sid ok w :
  w_sockets (on_connect E token sid ok w).2 = w_sockets w ∨
  ∃ u, w_sockets (on_connect E token sid ok w).2
       = w_sockets w ++ [mkSocket sid u ({[ sid ]} ∪ {[ u_id u ]})].
Proof.
  unfold on_connect, io_use. unfold_m. crunch; eauto.
Qed.

Lemma step_extends E op w : socket_op op = false → extends w (step E op w).
Proof.
  destruct op; simpl; try done; intros _.
  - apply on_socket_extends. intros s. apply send_group_message_extends.
  - apply on_socket_extends. intros s. apply update_greeting_status_extends.
  - apply on_socket_extends. intros s. apply admin_moderate_extends.
  - apply route_extends. intros u. apply post_greetings_handler_extends.
  - apply route_extends. intros u. apply put_greeting_handler_extends.
  - apply route_extends. intros u. apply post_group_member_handler_extends.
  - apply route_extends. intros u. apply mark_read_handler_extends.
Qed.

Lemma step_log E op w :
  ∃ ems, w_log (step E op w) = w_log w ++ ems ∧ Forall (dispatched w) ems.
Proof.
  destruct (socket_op op) eqn:Hop.
  - exists []. rewrite app_nil_r. split; [|done].
    destruct op; simpl in *; try done. apply on_connect_log.
  - by destruct (step_extends E op w Hop) as [_ H].
Qed.

Lemma emitted_app w w' ems : w_log w' = w_log w ++ ems → emitted w w' = ems.
Proof. intros H. unfold emitted. rewrite H. by rewrite drop_app_length. Qed.

Lemma run_cons E op ops w : run E (op :: ops) w = run E ops (step E op w).
Proof. done. Qed.

(** ** Rooms *)

Lemma elem_of_resolve w c g : c ∈ resolve w g ↔ subscribed w c g.
Proof.
  unfold resolve, subscribed, in_room. rewrite list_elem_of_fmap. split.
  - intros (s & -> & Hs). apply list_elem_of_filter in Hs as [Hg Hs].
    exists s. split_and!; [done..|]. by apply bool_decide_eq_true in Hg.
  - intros (s & Hs & <- & Hg). exists s. split; [done|].
    apply list_elem_of_filter. split; [|done]. by apply bool_decide_eq_true.
Qed.

Lemma elem_of_connected w c :
  c ∈ connected w ↔ ∃ s, s ∈ w_sockets w ∧ sock_id s = c.
Proof.
  unfold connected. rewrite list_elem_of_fmap.
  split; intros (s & H1 & H2); by exists s.
Qed.

Lemma disconnect_not_connected c w : c ∉ connected (disconnect c w).
Proof.
  rewrite elem_of_connected. intros (s & Hs & Hc). simpl in Hs.
  apply list_elem_of_filter in Hs as [Hne _]. done.
Qed.

Lemma join_group_subscribed c g w : c ∈ connected w → subscribed (join_group c g w) c g.
Proof.
  rewrite elem_of_connected. intros (s & Hs & Hc).
  exists (mkSocket (sock_id s) (sock_user s) (sock_rooms s ∪ {[ g ]})).
  split_and!; [|done|].
  - simpl. apply list_elem_of_fmap. exists s. split; [|done].
    by rewrite bool_decide_eq_true_2.
  - simpl. apply elem_of_union. right. by apply elem_of_singleton.
Qed.

Lemma keeps_subscribed E c g op w :
  keeps c g op → subscribed w c g → subscribed (step E op w) c g.
Proof.
  intros Hk (s & Hs & Hc & Hg). destruct (socket_op op) eqn:Hop.
  - destruct op; try done; cbn [step keeps] in *.
    + destruct (on_connect_sockets E token sid ok w) as [Hw|[u Hw]];
        exists s; rewrite Hw; split_and!; try done. apply elem_of_app. by left.
    + exists s. split_and!; try done. simpl. apply list_elem_of_filter.
      split; [congruence|done].
    + destruct (decide (sock_id s = sid)) as [Heq|Hne].
      * exists (mkSocket (sock_id s) (sock_user s) (sock_rooms s ∪ {[ group_id ]})).
        split_and!; [|done|].
        -- apply list_elem_of_fmap. exists s. by rewrite bool_decide_eq_true_2.
        -- simpl. apply elem_of_union. by left.
      * exists s. split_and!; try done.
        apply list_elem_of_fmap. exists s. by rewrite bool_decide_eq_false_2.
    + destruct (decide (sock_id s = sid)) as [Heq|Hne].
      * exists (mkSocket (sock_id s) (sock_user s) (sock_rooms s ∖ {[ group_id ]})).
        split_and!; [|done|].
        -- apply list_elem_of_fmap. exists s. by rewrite bool_decide_eq_true_2.
        -- simpl. apply elem_of_difference. split; [done|].
           apply not_elem_of_singleton. intros ->. apply Hk. split; congruence.
      * exists s. split_and!; try done.
        apply list_elem_of_fmap. exists s. by rewrite bool_decide_eq_false_2.
  - destruct (step_extends E op w Hop) as [Hsock _].
    exists s. by rewrite Hsock.
Qed.

Lemma run_log_subscribed E c g ops : ∀ w,
  Forall (keeps c g) ops → subscribed w c g →
  ∃ ems, w_log (run E ops w) = w_log w ++ ems ∧
         ∀ em, em ∈ ems → em_target em = ToRoom g → c ∈ em_to em.
Proof.
  induction ops as [|op ops IH]; intros w Hk Hsub.
  - exists []. rewrite app_nil_r. split; [done|]. by intros em ?%elem_of_nil.
  - apply Forall_cons in Hk as [Hop Hk]. rewrite run_cons.
    destruct (step_log E op w) as (e1 & Hl1 & Hd1).
    destruct (IH (step E op w) Hk (keeps_subscribed E c g op w Hop Hsub))
      as (e2 & Hl2 & Hd2).
    exists (e1 ++ e2). split; [by rewrite Hl2, Hl1, app_assoc|].
    intros em [Hem|Hem]%elem_of_app Ht; [|by apply Hd2].
    rewrite Forall_forall in Hd1. rewrite (Hd1 em Hem), Ht. simpl.
    by apply elem_of_resolve.
Qed.

(** ** Chat events go to the room of their group *)

Lemma send_group_message_targets data now uuid ok s :
  preserves targets (send_group_message data now uuid ok s).
Proof.
  intros w. unfold send_group_message, insert_chat_message. unfold_m.
  crunch; eexists [_]; (split; [done|]); by apply Forall_singleton.
Qed.

Lemma post_group_member_handler_targets gid body now u o1 o2 o3 user :
  preserves targets (post_group_member_handler gid body now u o1 o2 o3 user).
Proof.
  intros w. unfold post_group_member_handler, insert_member. unfold_m.
  crunch;
    first [ by exists []; rewrite app_nil_r
          | eexists [_]; (split; [done|]); by apply Forall_singleton ].
Qed.

Lemma step_targets E op w : targets w (step E op w).
Proof.
  destruct op; cbn [step].
  - exists []. rewrite app_nil_r. split; [apply on_connect_log|done].
  - exists []. by rewrite app_nil_r.
  - exists []. by rewrite app_nil_r.
  - exists []. by rewrite app_nil_r.
  - unfold on_socket. destruct (find_socket sid w); [|reflexivity].
    apply (preserves_exec targets), send_group_message_targets.
  - unfold on_socket. destruct (find_socket sid w); [|reflexivity].
    apply (preserves_exec targets). unfold update_greeting_status. preserve.
  - unfold on_socket. destruct (find_socket sid w); [|reflexivity].
    apply (preserves_exec targets). unfold admin_moderate. preserve.
  - apply (preserves_exec targets), (preserves_bind targets).
    + unfold authenticateToken. preserve.
    + intros [r|u]; [apply (preserves_ret targets)|].
      unfold post_greetings_handler. preserve.
  - apply (preserves_exec targets), (preserves_bind targets).
    + unfold authenticateToken. preserve.
    + intros [r|u]; [apply (preserves_ret targets)|].
      unfold put_greeting_handler. preserve.
  - apply (preserves_exec targets), (preserves_bind targets).
    + unfold authenticateToken. preserve.
    + intros [r|u]; [apply (preserves_ret targets)|].
      apply post_group_member_handler_targets.
  - apply (preserves_exec targets), (preserves_bind targets).
    + unfold authenticateToken. preserve.
    + intros [r|u]; [apply (preserves_ret targets)|].
      unfold mark_read_handler. preserve.
Qed.

Lemma run_targets E ops : ∀ w, targets w (run E ops w).
Proof.
  induction ops as [|op ops IH]; intros w; [reflexivity|].
  rewrite run_cons. etrans; [apply (step_targets E op)|apply IH].
Qed.

Lemma set_db_id w : set_db (w_db w) w = w.
Proof. by destruct w. Qed.

(** ** Connection registration *)

(** C7: a connection attempt whose identity resolution does not succeed
    (no credential, a credential that does not verify, a failing lookup, or
    no matching user) is rejected with an authentication error and leaves the
    registry as it was; one whose identity resolves to user [u] is accepted
    and registers one new socket, bound to [u] and placed in [u]'s room. *)
Theorem connection_requires_identity E token sid ok w :
  (∀ u, identity_resolves E token ok (w_db w) u →
        on_connect E token sid ok w
        = (Accepted,
           set_sockets
             (w_sockets w ++ [mkSocket sid u ({[ sid ]} ∪ {[ u_id u ]})]) w)) ∧
  ((∀ u, ¬ identity_resolves E token ok (w_db w) u) →
   ∃ err, on_connect E token sid ok w = (Rejected err, w) ∧
          err ∈ ["Authentication token required"; "Invalid token";
                 "Authentication failed"]).
Proof.
  split.
  - intros u (t & payload & uid & -> & Ht & Hv & Hu & -> & Hrow).
    unfold on_connect, io_use. unfold_m. simpl.
    rewrite bool_decide_eq_false_2 by done. rewrite Hv, Hu. simpl.
    destruct (filter _ (Users (w_db w))) as [|u' rows]; simplify_eq/=.
    by rewrite set_db_id.
  - intros Hno. unfold on_connect, io_use. unfold_m.
    destruct token as [t|]; simpl; [|eexists; split; [done|set_solver]].
    case_bool_decide as Ht; [eexists; split; [done|set_solver]|].
    destruct (jwt_verify E t) as [[uid]|] eqn:Hv;
      [|eexists; split; [done|set_solver]].
    destruct ok; [|eexists; split; [done|set_solver]].
    destruct uid as [uid|]; simpl;
      [|rewrite set_db_id; eexists; split; [done|set_solver]].
    destruct (filter _ (Users (w_db w))) as [|u rows] eqn:Hrows;
      [rewrite set_db_id; eexists; split; [done|set_solver]|].
    exfalso. apply (Hno u). exists t, (mkJwt (Some uid)), uid.
    by rewrite Hrows.
Qed.

Lemma connection_requires_identity_witness :
  on_connect Sample.collab (Some "t:user2") "s9" true Sample.online
  = (Accepted,
     set_sockets
       (w_sockets Sample.online
          ++ [mkSocket "s9" Sample.user2 ({[ "s9" ]} ∪ {[ "user2" ]})])
       Sample.online) ∧
  ∃ err, on_connect Sample.collab (Some "expired") "s9" true Sample.online
         = (Rejected err, Sample.online) ∧
         err ∈ ["Authentication token required"; "Invalid token";
                "Authentication failed"].
Proof.
  split.
  - apply (connection_requires_identity Sample.collab (Some "t:user2") "s9"
             true Sample.online).
    exists "t:user2", (mkJwt (Some "user2")), "user2". by vm_compute.
  - apply (connection_requires_identity Sample.collab (Some "expired") "s9"
             true Sample.online).
    intros u (t & payload & uid & [= <-] & _ & Hv & _). by vm_compute in Hv.
Defined.

(** ** Joining a group room *)

(** C10: [join_group] puts a connected socket in the room of any group id,
    whatever the GroupMembers table says: it reads and writes no table and
    emits no error. From then on every event sent to that room, and so every
    [group_message] and [member_joined] event of that group, is delivered to
    the socket, as long as it neither leaves the room nor disconnects. *)
Theorem join_group_unchecked E c g w ops :
  c ∈ connected w →
  Forall (keeps c g) ops →
  w_db (join_group c g w) = w_db w ∧
  w_log (join_group c g w) = w_log w ∧
  (∀ d, w_sockets (join_group c g (set_db d w))
        = w_sockets (join_group c g w)) ∧
  c ∈ resolve (join_group c g w) g ∧
  (∀ em, em ∈ emitted (join_group c g w) (run E ops (join_group c g w)) →
         em_target em = ToRoom g → c ∈ em_to em) ∧
  (∀ em, em ∈ emitted (join_group c g w) (run E ops (join_group c g w)) →
         (∃ m, em_payload em = PMessage m ∧ m_group_id m = g) ∨
         (∃ gm, em_payload em = PMember gm ∧ gm_group_id gm = g) →
         c ∈ em_to em).
Proof.
  intros Hc Hops.
  destruct (run_log_subscribed E c g ops (join_group c g w) Hops
              (join_group_subscribed c g w Hc)) as (ems & Hlog & Hems).
  destruct (run_targets E ops (join_group c g w)) as (ems' & Hlog' & Hroom).
  assert (ems' = ems) as -> by (rewrite Hlog in Hlog'; by simplify_list_eq).
  rewrite (emitted_app _ _ _ Hlog). split_and!; try done.
  - apply elem_of_resolve. by apply join_group_subscribed.
  - intros em Hem Hpay. apply Hems; [done|].
    rewrite Forall_forall in Hroom. specialize (Hroom em Hem).
    unfold room_targeted in Hroom.
    destruct Hpay as [(m & Hm & <-)|(gm & Hgm & <-)].
    + by rewrite Hm in Hroom.
    + by rewrite Hgm in Hroom.
Qed.

Lemma join_group_unchecked_witness :
  is_member Sample.db "user3" "group1" = false ∧
  "s4" ∈ resolve (join_group "s4" "group1" Sample.online) "group1" ∧
  ∀ em, em ∈ emitted (join_group "s4" "group1" Sample.online)
               (run Sample.collab Sample.traffic
                  (join_group "s4" "group1" Sample.online)) →
        em_target em = ToRoom "group1" → "s4" ∈ em_to em.
Proof.
  split; [by vm_compute|].
  assert ("s4" ∈ connected Sample.online) as Hc
    by (apply (bool_decide_unpack _); by vm_compute).
  assert (Forall (keeps "s4" "group1") Sample.traffic) as Hops
    by repeat constructor.
  destruct (join_group_unchecked Sample.collab "s4" "group1" Sample.online
              Sample.traffic Hc Hops) as (_ & _ & _ & Hin & Hall & _).
  by split.
Defined.

(** ** Authenticated routes *)

Lemma authenticateToken_done E a ok w :
  ∃ r, authenticateToken E a ok w = (Done r, w).
Proof.
  unfold authenticateToken. unfold_m. crunch; rewrite ?set_db_id; eauto.
Qed.

Lemma route_cases E a ok (h : UserRow → M HttpResponse) w :
  (∃ r, route E a ok h w = (r, w)) ∨
  (∃ u, (authenticateToken E a ok w).1 = Done (inr u) ∧
        route E a ok h w = exec (h u) internal_error w).
Proof.
  unfold route. destruct (authenticateToken_done E a ok w) as [[r|u] Hr].
  - left. exists r. unfold_m. by rewrite Hr.
  - right. exists u. unfold exec, mbind, M_bind, bind. by rewrite Hr.
Qed.

Lemma route_authenticated E a ok (h : UserRow → M HttpResponse) w u :
  (authenticateToken E a ok w).1 = Done (inr u) →
  route E a ok h w = exec (h u) internal_error w.
Proof.
  intros Hu. destruct (authenticateToken_done E a ok w) as [r Hr].
  rewrite Hr in Hu. simplify_eq/=.
  unfold route, exec, mbind, M_bind, bind. by rewrite Hr.
Qed.

Lemma on_socket_found sid (h : Socket → M unit) w s :
  find_socket sid w = Some s → on_socket sid h w = (exec (h s) tt w).2.
Proof. intros Hs. unfold on_socket. by rewrite Hs. Qed.

Lemma find_socket_id sid w s : find_socket sid w = Some s → sock_id s = sid.
Proof.
  unfold find_socket. intros Hs.
  destruct (filter (λ s0, sock_id s0 = sid) (w_sockets w)) as [|s' l] eqn:Hf;
    simplify_eq/=.
  assert (s ∈ filter (λ s0, sock_id s0 = sid) (w_sockets w)) as Hin
    by (rewrite Hf; left).
  by apply list_elem_of_filter in Hin as [? _].
Qed.

Lemma emitted_same w w' : w_log w' = w_log w → emitted w w' = [].
Proof. intros H. unfold emitted. rewrite H. apply drop_all. Qed.

Lemma emitted_one w w' e : w_log w' = w_log w ++ [e] → emitted w w' = [e].
Proof. apply emitted_app. Qed.

Lemma emitted_two w w' e1 e2 :
  w_log w' = (w_log w ++ [e1]) ++ [e2] → emitted w w' = [e1; e2].
Proof. intros H. apply emitted_app. by rewrite H, <- app_assoc. Qed.

(** Rewrite [emitted w w'] to the explicit list, for an explicit [w']. *)
Ltac emitted_compute :=
  repeat match goal with
    | |- context [emitted ?w ?w'] =>
        first [ rewrite (emitted_same w w' eq_refl)
              | rewrite (emitted_one w w' _ eq_refl)
              | rewrite (emitted_two w w' _ _ eq_refl) ]
    | H : context [emitted ?w ?w'] |- _ =>
        first [ rewrite (emitted_same w w' eq_refl) in H
              | rewrite (emitted_one w w' _ eq_refl) in H
              | rewrite (emitted_two w w' _ _ eq_refl) in H ]
    end.

(** ** Group chat fan-out *)




(** ** [UPDATE ... WHERE ... RETURNING *] *)

Section UpdateWhere.
Context {A : Type} (p : A → bool) (f : A → A).

Lemma update_where_hit rows r :
  r ∈ rows → p r = true → f r ∈ (update_where p f rows).1.
Proof.
  intros Hr Hp. simpl. apply list_elem_of_fmap. exists r. by rewrite Hp.
Qed.

Lemma update_where_inv rows r' :
  r' ∈ (update_where p f rows).1 →
  ∃ r, r ∈ rows ∧ (p r = true ∧ r' = f r ∨ p r = false ∧ r' = r).
Proof.
  simpl. intros (r & -> & Hr)%list_elem_of_fmap. exists r. split; [done|].
  destruct (p r); eauto.
Qed.

Lemma update_where_returning rows r' :
  r' ∈ (update_where p f rows).2 → ∃ r, r ∈ rows ∧ p r = true ∧ r' = f r.
Proof.
  simpl. intros (r & -> & Hr)%list_elem_of_fmap.
  apply list_elem_of_filter in Hr as [Hp Hr]. eauto.
Qed.

Lemma update_where_returning_nonempty rows r :
  r ∈ rows → p r = true → (update_where p f rows).2 ≠ [].
Proof.
  intros Hr Hp Hnil. simpl in Hnil. apply fmap_nil_inv in Hnil.
  assert (r ∈ filter (λ r, p r = true) rows) as Hin
    by by apply list_elem_of_filter.
  rewrite Hnil in Hin. by apply elem_of_nil in Hin.
Qed.

Lemma update_where_length rows :
  length (update_where p f rows).1 = length rows.
Proof. simpl. by rewrite length_fmap. Qed.

Lemma update_where_lookup rows i r :
  rows !! i = Some r →
  (update_where p f rows).1 !! i = Some (if p r then f r else r).
Proof. intros Hi. simpl. by rewrite list_lookup_fmap, Hi. Qed.
End UpdateWhere.

(** ** What the status handlers do, by outcome of the write *)

Lemma update_greeting_status_ok s gid st now w :
  (exec (update_greeting_status (Some (mkStatusUpdate gid st)) now true s) tt w).2
  = let upd := update_where (λ g, bool_decide (g_id g = gid))
                 (with_status st now) (Greetings (w_db w)) in
    let w1 := set_db (set_greetings upd.1 (w_db w)) w in
    match upd.2 with
    | [] => w1
    | g1 :: _ =>
        push_log (mkEmission ToAll ("greeting_" +:+ gid +:+ "_status")
                    (PGreeting g1) (connected w)) w1
    end.
Proof.
  unfold update_greeting_status, update_status_sql. unfold_m. simpl.
  by destruct (with_status st now <$> filter _ _).
Qed.

Lemma update_greeting_status_fail s data now w :
  (exec (update_greeting_status data now false s) tt w).2
  = push_log (mkEmission (ToSocket (sock_id s)) "error"
                (PError "Failed to update greeting status") [sock_id s]) w.
Proof. unfold update_greeting_status. unfold_m. by destruct data. Qed.

Lemma updateGreetingInputSchema_Some body v :
  updateGreetingInputSchema body = Some v →
  ug_content v = ru_content body ∧
  ug_scheduled_at v = ru_scheduled_at body ∧
  ru_status body = Some <$> ug_status v ∧
  ∀ st, ug_status v = Some st → status_enum st = true.
Proof.
  unfold updateGreetingInputSchema. intros H.
  destruct (optional_string (ru_sender_id body)),
    (optional_string (ru_recipient_type body)),
    (optional_string (ru_recipient_id body)); simplify_eq/=.
  destruct (ru_status body) as [[st|]|]; simplify_eq/=.
  - destruct (status_enum st) eqn:Hst; simplify_eq/=.
    split_and!; [done..|]. by intros st' [= <-].
  - by split_and!.
Qed.

Lemma put_greeting_handler_ok gid body v now u w :
  updateGreetingInputSchema body = Some v →
  exec (put_greeting_handler gid body now true u) internal_error w
  = let upd := update_where (λ g, bool_decide (g_id g = gid))
                 (apply_update v now) (Greetings (w_db w)) in
    let w1 := set_db (set_greetings upd.1 (w_db w)) w in
    match upd.2 with
    | [] => (mkResp 404 (BError "Greeting not found" "GREETING_NOT_FOUND"), w1)
    | g1 :: _ =>
        (mkResp 200 (BGreeting g1),
         push_log (mkEmission ToAll ("greeting_" +:+ gid +:+ "_updated")
                     (PGreeting g1) (connected w)) w1)
    end.
Proof.
  intros Hv. unfold put_greeting_handler. rewrite Hv.
  unfold put_greeting_sql. unfold_m. simpl.
  by destruct (apply_update v now <$> filter _ _).
Qed.

Lemma put_greeting_handler_fail gid body now u w :
  updateGreetingInputSchema body ≠ None →
  exec (put_greeting_handler gid body now false u) internal_error w
  = (internal_error, w).
Proof.
  intros Hv. unfold put_greeting_handler. unfold_m.
  by destruct (updateGreetingInputSchema body).
Qed.

(** ** Status-change events *)

Lemma status_op_emitted E op w em :
  status_change_op op = true →
  em ∈ emitted w (step E op w) →
  (∃ sid, em = mkEmission (ToSocket sid) "error"
                 (PError "Failed to update greeting status") [sid]) ∨
  (∃ g sid st now ok,
     op = UpdateGreetingStatus sid (Some (mkStatusUpdate (g_id g) st)) now ok ∧
     em = mkEmission ToAll ("greeting_" +:+ g_id g +:+ "_status")
            (PGreeting g) (connected w)) ∨
  (∃ g a body now oa ok,
     op = PutGreeting a (g_id g) body now oa ok ∧
     em = mkEmission ToAll ("greeting_" +:+ g_id g +:+ "_updated")
            (PGreeting g) (connected w)).
Proof.
  intros Hop Hem. destruct op; try done; cbn [step] in Hem.
  - destruct (find_socket sid w) as [s|] eqn:Hs.
    2: { unfold on_socket in Hem. rewrite Hs in Hem. emitted_compute.
         by apply elem_of_nil in Hem. }
    rewrite (on_socket_found _ _ _ _ Hs) in Hem.
    pose proof (find_socket_id _ _ _ Hs) as Hid.
    destruct ok.
    + destruct data as [[gid st]|].
      * rewrite update_greeting_status_ok in Hem. cbn zeta in Hem.
        destruct (update_where _ _ _).2 as [|g1 rows] eqn:Hrows.
        { emitted_compute. by apply elem_of_nil in Hem. }
        emitted_compute. apply list_elem_of_singleton in Hem. subst em.
        assert (g1 ∈ (update_where (λ g, bool_decide (g_id g = gid))
                        (with_status st now) (Greetings (w_db w))).2)
          as (r & _ & Hp & ->)%update_where_returning
          by (rewrite Hrows; left).
        apply bool_decide_eq_true in Hp. subst gid.
        right; left. by exists (with_status st now r), sid, st, now, true.
      * revert Hem. unfold update_greeting_status. unfold_m. simpl.
        emitted_compute. intros ->%list_elem_of_singleton.
        left. exists sid. by rewrite Hid.
    + rewrite update_greeting_status_fail in Hem. emitted_compute.
      apply list_elem_of_singleton in Hem. left. exists sid. by rewrite <- Hid.
  - destruct (route_cases E authHeader ok_auth
                (put_greeting_handler greeting_id body now ok) w)
      as [[r Hr]|(u & _ & Hr)]; unfold put_greeting in Hem;
      rewrite Hr in Hem;
      [by emitted_compute; apply elem_of_nil in Hem|].
    destruct (updateGreetingInputSchema body) as [v|] eqn:Hv.
    2: { revert Hem. unfold put_greeting_handler. rewrite Hv. unfold_m.
         emitted_compute. by intros ?%elem_of_nil. }
    destruct ok.
    + rewrite (put_greeting_handler_ok _ _ _ _ _ _ Hv) in Hem.
      cbn zeta in Hem.
      destruct (update_where _ _ _).2 as [|g1 rows] eqn:Hrows.
      { emitted_compute. by apply elem_of_nil in Hem. }
      emitted_compute. apply list_elem_of_singleton in Hem. subst em.
      assert (g1 ∈ (update_where (λ g, bool_decide (g_id g = greeting_id))
                      (apply_update v now) (Greetings (w_db w))).2)
        as (r & _ & Hp & ->)%update_where_returning
        by (rewrite Hrows; left).
      apply bool_decide_eq_true in Hp. subst greeting_id.
      right; right.
      by exists (apply_update v now r), authHeader, body, now, ok_auth, true.
    + rewrite put_greeting_handler_fail in Hem by (by rewrite Hv).
      emitted_compute. by apply elem_of_nil in Hem.
Qed.

(** C1, as the code has it: a status-change event (the event carrying the
    updated greeting, from the socket handler or from the PUT route) is sent
    with [io.emit] under a name made of the greeting's id,
    [greeting_<id>_status] from the socket handler and
    [greeting_<id>_updated] from the PUT route: it is observed by every
    socket connected when it is sent, whoever its user is, and by no other; a
    socket that had disconnected before is not among them. *)
Theorem status_change_broadcast E op w em :
  status_change_op op = true →
  em ∈ emitted w (step E op w) →
  (∃ g, em_payload em = PGreeting g) →
  em_target em = ToAll ∧
  (∃ g, em_payload em = PGreeting g ∧
        ((∃ sid st now ok,
            op = UpdateGreetingStatus sid
                   (Some (mkStatusUpdate (g_id g) st)) now ok ∧
            em_event em = "greeting_" +:+ g_id g +:+ "_status") ∨
         (∃ a body now oa ok,
            op = PutGreeting a (g_id g) body now oa ok ∧
            em_event em = "greeting_" +:+ g_id g +:+ "_updated"))) ∧
  (∀ c, c ∈ em_to em ↔ c ∈ connected w) ∧
  (∀ c w0, w = disconnect c w0 → c ∉ em_to em).
Proof.
  intros Hop Hem [g0 Hg0].
  destruct (status_op_emitted E op w em Hop Hem)
    as [[sid ->]|[(g & sid & st & now & ok & -> & ->)|
                  (g & a & body & now & oa & ok & -> & ->)]];
    [done|..]; simpl.
  - split_and!; [done| |done|].
    + exists g. split; [done|]. left. by exists sid, st, now, ok.
    + intros c w0 ->. apply disconnect_not_connected.
  - split_and!; [done| |done|].
    + exists g. split; [done|]. right. by exists a, body, now, oa, ok.
    + intros c w0 ->. apply disconnect_not_connected.
Qed.

Lemma status_change_broadcast_witness :
  em_target Sample.delivered_event = ToAll ∧
  (∃ g, em_payload Sample.delivered_event = PGreeting g ∧
        ((∃ sid st now ok,
            Sample.deliver_greet1
            = UpdateGreetingStatus sid
                (Some (mkStatusUpdate (g_id g) st)) now ok ∧
            em_event Sample.delivered_event
            = "greeting_" +:+ g_id g +:+ "_status") ∨
         (∃ a body now oa ok,
            Sample.deliver_greet1 = PutGreeting a (g_id g) body now oa ok ∧
            em_event Sample.delivered_event
            = "greeting_" +:+ g_id g +:+ "_updated"))) ∧
  (∀ c, c ∈ em_to Sample.delivered_event ↔ c ∈ connected Sample.online) ∧
  (∀ c w0, Sample.online = disconnect c w0 → c ∉ em_to Sample.delivered_event).
Proof.
  assert (emitted Sample.online (step Sample.collab Sample.deliver_greet1
                                   Sample.online) = [Sample.delivered_event])
    as Hem by (by vm_compute).
  apply (status_change_broadcast Sample.collab Sample.deliver_greet1
           Sample.online Sample.delivered_event).
  - done.
  - rewrite Hem. by apply list_elem_of_singleton.
  - by eexists.
Defined.

(** C1, as stated, fails: greet1 goes from user1 to user2, whose sockets are
    s1 and s2, s3; the status event is observed by s4 as well, the socket of
    user3. *)
Lemma status_change_reaches_unrelated :
  g_sender_id Sample.greet1 = "user1" ∧
  g_recipient_id Sample.greet1 = "user2" ∧
  resolve Sample.online "user1" = ["s1"] ∧
  resolve Sample.online "user2" = ["s2"; "s3"] ∧
  (u_id ∘ sock_user <$> find_socket "s4" Sample.online) = Some "user3" ∧
  em_event <$>
    observed "s4"
      (emitted Sample.online
         (step Sample.collab Sample.deliver_greet1 Sample.online))
  = ["greeting_greet1_status"].
Proof. by vm_compute. Qed.

(** ** Status transitions *)

Lemma socket_status_update_run E w g st now sid s :
  find_socket sid w = Some s →
  g ∈ Greetings (w_db w) →
  let w' := step E (UpdateGreetingStatus sid
                      (Some (mkStatusUpdate (g_id g) st)) now true) w in
  with_status st now g ∈ Greetings (w_db w') ∧
  (∀ g', g' ∈ Greetings (w_db w') → g_id g' = g_id g → g_status g' = st) ∧
  ∃ g1, g1 ∈ Greetings (w_db w') ∧ g_id g1 = g_id g ∧ g_status g1 = st ∧
        emitted w w'
        = [mkEmission ToAll ("greeting_" +:+ g_id g +:+ "_status")
             (PGreeting g1) (connected w)].
Proof.
  intros Hs Hg. cbn zeta. cbn [step].
  rewrite (on_socket_found _ _ _ _ Hs), update_greeting_status_ok. cbn zeta.
  set (p := λ g0 : Greeting, bool_decide (g_id g0 = g_id g)).
  assert (p g = true) as Hp by by apply bool_decide_eq_true.
  pose proof (update_where_hit p (with_status st now) _ g Hg Hp) as Hhit.
  pose proof (update_where_returning_nonempty p (with_status st now) _ g Hg Hp)
    as Hne.
  assert (∀ g', g' ∈ (update_where p (with_status st now)
                        (Greetings (w_db w))).1 →
                g_id g' = g_id g → g_status g' = st) as Hall.
  { intros g' (r & Hr & [[_ ->]|[Hpr ->]])%update_where_inv Hid; [done|].
    apply bool_decide_eq_false in Hpr. done. }
  destruct (update_where p (with_status st now) (Greetings (w_db w))).2
    as [|g1 rows] eqn:Hrows; [done|].
  split_and!; [done|done|]. exists g1.
  assert (g1 ∈ (update_where p (with_status st now) (Greetings (w_db w))).2)
    as (r & Hr & Hpr & ->)%update_where_returning
    by (rewrite Hrows; left).
  split_and!; [by apply update_where_hit| |done|by apply emitted_one].
  by apply bool_decide_eq_true in Hpr.
Qed.

Lemma put_status_update_run E w g st now a oa u body v :
  (authenticateToken E a oa w).1 = Done (inr u) →
  g ∈ Greetings (w_db w) →
  updateGreetingInputSchema body = Some v → ug_status v = Some st →
  let r := put_greeting E a (g_id g) body now oa true w in
  apply_update v now g ∈ Greetings (w_db r.2) ∧
  (∀ g', g' ∈ Greetings (w_db r.2) → g_id g' = g_id g → g_status g' = st) ∧
  ∃ g1, g1 ∈ Greetings (w_db r.2) ∧ g_id g1 = g_id g ∧ g_status g1 = st ∧
        r.1 = mkResp 200 (BGreeting g1) ∧
        emitted w r.2
        = [mkEmission ToAll ("greeting_" +:+ g_id g +:+ "_updated")
             (PGreeting g1) (connected w)].
Proof.
  intros Hu Hg Hv Hst. cbn zeta. unfold put_greeting.
  rewrite (route_authenticated _ _ _ _ _ _ Hu).
  rewrite (put_greeting_handler_ok _ _ _ _ _ _ Hv). cbn zeta.
  set (p := λ g0 : Greeting, bool_decide (g_id g0 = g_id g)).
  assert (p g = true) as Hp by by apply bool_decide_eq_true.
  pose proof (update_where_hit p (apply_update v now) _ g Hg Hp) as Hhit.
  pose proof (update_where_returning_nonempty p (apply_update v now) _ g
                Hg Hp) as Hne.
  assert (∀ g', g' ∈ (update_where p (apply_update v now)
                        (Greetings (w_db w))).1 →
                g_id g' = g_id g → g_status g' = st) as Hall.
  { intros g' (r & Hr & [[_ ->]|[Hpr ->]])%update_where_inv Hid.
    - simpl. by rewrite Hst.
    - apply bool_decide_eq_false in Hpr. done. }
  destruct (update_where p (apply_update v now) (Greetings (w_db w))).2
    as [|g1 rows] eqn:Hrows; [done|].
  split_and!; [done|done|]. exists g1.
  assert (g1 ∈ (update_where p (apply_update v now) (Greetings (w_db w))).2)
    as (r & Hr & Hpr & ->)%update_where_returning
    by (rewrite Hrows; left).
  split_and!; [by apply update_where_hit| | |done|by apply emitted_one].
  - by apply bool_decide_eq_true in Hpr.
  - simpl. by rewrite Hst.
Qed.

(** C2, as the code has it: no status is terminal. A status update on a
    greeting stored as [delivered] or [failed] is accepted whenever the store
    accepts the write: every row with that id gets the requested status (any
    string from the socket handler, any of the four statuses from the PUT
    route, whose schema lets each of the four through), the change is
    broadcast to every connected socket as the only emit of the call, and
    nothing is rejected: the route answers 200 with the row. *)
Theorem terminal_status_overwritten E w g st now :
  g ∈ Greetings (w_db w) →
  g_status g = "delivered" ∨ g_status g = "failed" →
  (∀ sid s, find_socket sid w = Some s →
     let w' := step E (UpdateGreetingStatus sid
                         (Some (mkStatusUpdate (g_id g) st)) now true) w in
     with_status st now g ∈ Greetings (w_db w') ∧
     (∀ g', g' ∈ Greetings (w_db w') → g_id g' = g_id g → g_status g' = st) ∧
     ∃ g1, g_id g1 = g_id g ∧ g_status g1 = st ∧
           emitted w w'
           = [mkEmission ToAll ("greeting_" +:+ g_id g +:+ "_status")
                (PGreeting g1) (connected w)]) ∧
  (∀ a oa u body v,
     (authenticateToken E a oa w).1 = Done (inr u) →
     updateGreetingInputSchema body = Some v → ug_status v = Some st →
     let r := put_greeting E a (g_id g) body now oa true w in
     apply_update v now g ∈ Greetings (w_db r.2) ∧
     (∀ g', g' ∈ Greetings (w_db r.2) → g_id g' = g_id g → g_status g' = st) ∧
     ∃ g1, g_id g1 = g_id g ∧ g_status g1 = st ∧
           r.1 = mkResp 200 (BGreeting g1) ∧
           emitted w r.2
           = [mkEmission ToAll ("greeting_" +:+ g_id g +:+ "_updated")
                (PGreeting g1) (connected w)]) ∧
  (status_enum st = true →
   ∀ content scheduled_at,
     updateGreetingInputSchema
       (mkRawUpdate content None None None (Some (Some st)) scheduled_at)
     = Some (mkUpdateGreeting content (Some st) scheduled_at)).
Proof.
  intros Hg _. split_and!.
  - intros sid s Hs.
    destruct (socket_status_update_run E w g st now sid s Hs Hg)
      as (Hrow & Hall & g1 & _ & Hid & Hst & Hem).
    split_and!; [done..|]. by exists g1.
  - intros a oa u body v Hu Hv Hst.
    destruct (put_status_update_run E w g st now a oa u body v Hu Hg Hv Hst)
      as (Hrow & Hall & g1 & _ & Hid & Hst1 & Hresp & Hem).
    split_and!; [done..|]. by exists g1.
  - intros Hen content scheduled_at. unfold updateGreetingInputSchema.
    simpl. by rewrite Hen.
Qed.

Lemma terminal_status_overwritten_witness :
  with_status "pending" "2023-10-06T10:00:00Z" Sample.greet3
  ∈ Greetings (w_db (step Sample.collab Sample.reopen_greet3 Sample.online)).
Proof.
  assert (Sample.greet3 ∈ Greetings (w_db Sample.online)) as Hin
    by (do 2 right; left).
  destruct (terminal_status_overwritten Sample.collab Sample.online
              Sample.greet3 "pending" "2023-10-06T10:00:00Z" Hin
              (or_introl eq_refl)) as [Hsocket _].
  destruct (Hsocket "s1"
              (mkSocket "s1" Sample.user1 ({[ "s1" ]} ∪ {[ "user1" ]}))
              eq_refl) as [Hrow _].
  exact Hrow.
Defined.

(** C2, as stated, fails: greet3 is stored as [delivered]; the update to
    [pending] is stored and broadcast, and no error is sent. *)
Lemma delivered_is_not_terminal :
  g_status <$> filter (λ g, g_id g = "greet3") (Greetings (w_db Sample.online))
  = ["delivered"] ∧
  g_status <$> filter (λ g, g_id g = "greet3")
    (Greetings (w_db (step Sample.collab Sample.reopen_greet3 Sample.online)))
  = ["pending"] ∧
  em_event <$> emitted Sample.online
                 (step Sample.collab Sample.reopen_greet3 Sample.online)
  = ["greeting_greet3_status"].
Proof. by vm_compute. Qed.

(** ** Creating a greeting *)

Lemma createGreetingInputSchema_Some body v :
  createGreetingInputSchema body = Some v →
  rg_status body = Some (cg_status v) ∧
  status_enum (cg_status v) = true ∧
  rg_recipient_type body = Some (cg_recipient_type v) ∧
  rg_recipient_id body = Some (cg_recipient_id v) ∧
  rg_scheduled_at body = cg_scheduled_at v.
Proof.
  unfold createGreetingInputSchema. intros H.
  destruct (rg_id body), (rg_sender_id body), (rg_recipient_type body),
    (rg_recipient_id body), (rg_status body) as [st|]; simplify_eq/=.
  destruct (status_enum st) eqn:Hst; by simplify_eq/=.
Qed.

Lemma post_greetings_handler_ok body v now u1 u2 on user w :
  createGreetingInputSchema body = Some v →
  exec (post_greetings_handler body now u1 u2 true on user) internal_error w
  = let g := greeting_row v now u1 in
    let n := notification_row v now u1 u2 in
    let w1 := push_log (mkEmission ToAll "greeting_created" (PGreeting g)
                          (connected w))
                (set_db (set_greetings (Greetings (w_db w) ++ [g]) (w_db w)) w) in
    if bool_decide (cg_recipient_type v = "user")
    then
      if on
      then (mkResp 201 (BGreeting g),
            push_log (mkEmission (ToRoom (cg_recipient_id v)) "notification"
                        (PNotification n) (resolve w (cg_recipient_id v)))
              (set_db (set_notifications (Notifications (w_db w) ++ [n])
                         (w_db w1)) w1))
      else (internal_error, w1)
    else (mkResp 201 (BGreeting g), w1).
Proof.
  intros Hv. unfold post_greetings_handler. rewrite Hv. unfold_m. simpl.
  case_bool_decide; [|done]. by destruct on.
Qed.

Lemma post_greetings_handler_fail body now u1 u2 on user w :
  createGreetingInputSchema body ≠ None →
  exec (post_greetings_handler body now u1 u2 false on user) internal_error w
  = (internal_error, w).
Proof.
  intros Hv. unfold post_greetings_handler. unfold_m.
  by destruct (createGreetingInputSchema body).
Qed.

(** C3, as the code has it: the status stored for a new greeting is the
    [status] field of the request, one of the four statuses, whatever
    [scheduled_at] is. *)
Theorem initial_status_is_request_status E a oa u body v now u1 u2 on w :
  (authenticateToken E a oa w).1 = Done (inr u) →
  createGreetingInputSchema body = Some v →
  rg_status body = Some (cg_status v) ∧
  status_enum (cg_status v) = true ∧
  ∃ g, Greetings (w_db (post_greetings E a body now u1 u2 oa true on w).2)
       = Greetings (w_db w) ++ [g] ∧
       g_status g = cg_status v ∧
       g_scheduled_at g = or_null (rg_scheduled_at body).
Proof.
  intros Hu Hv.
  destruct (createGreetingInputSchema_Some body v Hv) as (Hst & Hen & _ & _ & Hsch).
  split_and!; [done..|]. exists (greeting_row v now u1).
  unfold post_greetings. rewrite (route_authenticated _ _ _ _ _ _ Hu).
  rewrite (post_greetings_handler_ok _ _ _ _ _ _ _ _ Hv). cbn zeta.
  rewrite Hsch. by repeat case_match.
Qed.

Lemma initial_status_is_request_status_witness :
  ∃ g, Greetings (w_db (step Sample.collab (Sample.post_card Sample.card true)
                          Sample.online))
       = Greetings (w_db Sample.online) ++ [g] ∧
       g_status g = "delivered" ∧ g_scheduled_at g = None.
Proof.
  apply (initial_status_is_request_status Sample.collab
           (Some "Bearer t:user1") true Sample.user1 Sample.card
           (mkCreateGreeting "greet5" (Some "{text: Get well soon!}") "user1"
              "user" "user2" "delivered" None)
           "2023-10-06T12:00:00Z" "uuid-g" "uuid-n" true Sample.online).
  - by vm_compute.
  - by vm_compute.
Defined.

(** C3, as stated, fails both ways: an unscheduled greeting is stored as
    [delivered], not [sent], and one scheduled for 2030 is stored as [sent],
    not [pending]. *)
Lemma initial_status_ignores_schedule :
  (λ g, (g_scheduled_at g, g_status g)) <$>
    drop 4 (Greetings (w_db (step Sample.collab
                               (Sample.post_card Sample.card true)
                               Sample.online)))
  = [(None, "delivered")] ∧
  (λ g, (g_created_at g, g_scheduled_at g, g_status g)) <$>
    drop 4 (Greetings (w_db (step Sample.collab
                               (Sample.post_card Sample.scheduled_card true)
                               Sample.online)))
  = [("2023-10-06T12:00:00Z", Some "2030-01-01T00:00:00Z", "sent")].
Proof. by vm_compute. Qed.

(** ** Notifications *)

(** C4, as the code has it: when the write of the Notification row fails,
    the request ends in a 500, no row is added to Notifications and no
    [notification] event is sent. The [greeting_created] broadcast, made
    before that write, has gone out to every connected socket. *)
Theorem notification_write_failure E a oa u body v now u1 u2 w :
  (authenticateToken E a oa w).1 = Done (inr u) →
  createGreetingInputSchema body = Some v →
  cg_recipient_type v = "user" →
  post_greetings E a body now u1 u2 oa true false w
  = (internal_error,
     push_log (mkEmission ToAll "greeting_created"
                 (PGreeting (greeting_row v now u1)) (connected w))
       (set_db (set_greetings (Greetings (w_db w) ++ [greeting_row v now u1])
                  (w_db w)) w)) ∧
  Notifications (w_db (post_greetings E a body now u1 u2 oa true false w).2)
  = Notifications (w_db w) ∧
  ∀ em, em ∈ emitted w (post_greetings E a body now u1 u2 oa true false w).2 →
        em_event em = "greeting_created" ∧ em_target em = ToAll.
Proof.
  intros Hu Hv Hty. unfold post_greetings.
  rewrite (route_authenticated _ _ _ _ _ _ Hu).
  rewrite (post_greetings_handler_ok _ _ _ _ _ _ _ _ Hv). cbn zeta.
  rewrite bool_decide_eq_true_2 by done. split_and!; [done..|].
  intros em. emitted_compute. by intros ->%list_elem_of_singleton.
Qed.

Lemma notification_write_failure_witness :
  Notifications (w_db (step Sample.collab (Sample.post_card Sample.card false)
                         Sample.online))
  = Notifications (w_db Sample.online) ∧
  ∀ em, em ∈ emitted Sample.online
               (step Sample.collab (Sample.post_card Sample.card false)
                  Sample.online) →
        em_event em = "greeting_created" ∧ em_target em = ToAll.
Proof.
  apply (notification_write_failure Sample.collab (Some "Bearer t:user1") true
           Sample.user1 Sample.card
           (mkCreateGreeting "greet5" (Some "{text: Get well soon!}") "user1"
              "user" "user2" "delivered" None)
           "2023-10-06T12:00:00Z" "uuid-g" "uuid-n" Sample.online).
  - by vm_compute.
  - by vm_compute.
  - done.
Defined.

(** C4, as stated, fails: the write of the Notification row for user2 fails,
    no row exists and the request ends in a 500, yet an event has reached s2
    and s3, the sockets of user2. *)
Lemma event_reaches_recipient_without_notification :
  resolve Sample.online "user2" = ["s2"; "s3"] ∧
  res_status (post_greetings Sample.collab (Some "Bearer t:user1") Sample.card
                "2023-10-06T12:00:00Z" "uuid-g" "uuid-n" true true false
                Sample.online).1 = 500%nat ∧
  Notifications (w_db (step Sample.collab (Sample.post_card Sample.card false)
                         Sample.online)) = [] ∧
  em_event <$>
    observed "s2"
      (emitted Sample.online
         (step Sample.collab (Sample.post_card Sample.card false) Sample.online))
  = ["greeting_created"] ∧
  em_event <$>
    observed "s3"
      (emitted Sample.online
         (step Sample.collab (Sample.post_card Sample.card false) Sample.online))
  = ["greeting_created"].
Proof. by vm_compute. Qed.

Lemma authenticateToken_same_notifications E a ok :
  preserves same_notifications (authenticateToken E a ok).
Proof. unfold authenticateToken. preserve. Qed.

Lemma on_socket_same_notifications sid (h : Socket → M unit) w :
  (∀ s, preserves same_notifications (h s)) →
  same_notifications w (on_socket sid h w).
Proof.
  intros Hh. unfold on_socket. destruct (find_socket sid w) as [s|].
  - by apply (preserves_exec same_notifications).
  - reflexivity.
Qed.

Lemma route_same_notifications E a ok (h : UserRow → M HttpResponse) w :
  (∀ u, preserves same_notifications (h u)) →
  same_notifications w (route E a ok h w).2.
Proof.
  intros Hh. unfold route. apply (preserves_exec same_notifications).
  apply (preserves_bind same_notifications);
    [apply authenticateToken_same_notifications|].
  intros [r|u]; [apply (preserves_ret same_notifications)|apply Hh].
Qed.

(** Only creating a greeting and marking as read write to Notifications. *)
Lemma step_same_notifications E op w :
  match op with
  | PostGreetings _ _ _ _ _ _ _ _ | MarkRead _ _ _ _ _ _ => True
  | _ => same_notifications w (step E op w)
  end.
Proof.
  destruct op; try done; cbn [step].
  - unfold same_notifications, on_connect, io_use. unfold_m. by crunch.
  - apply on_socket_same_notifications. intros s.
    unfold send_group_message. preserve.
  - apply on_socket_same_notifications. intros s.
    unfold update_greeting_status. preserve.
  - apply on_socket_same_notifications. intros s.
    unfold admin_moderate. preserve.
  - apply route_same_notifications. intros u.
    unfold put_greeting_handler. preserve.
  - apply route_same_notifications. intros u.
    unfold post_group_member_handler. preserve.
Qed.

Lemma post_greetings_notifications E a body now u1 u2 oa og on w :
  Notifications (w_db (post_greetings E a body now u1 u2 oa og on w).2)
  = Notifications (w_db w) ∨
  ∃ v, createGreetingInputSchema body = Some v ∧
       cg_recipient_type v = "user" ∧
       Notifications (w_db (post_greetings E a body now u1 u2 oa og on w).2)
       = Notifications (w_db w) ++ [notification_row v now u1 u2].
Proof.
  unfold post_greetings.
  destruct (route_cases E a oa
              (post_greetings_handler body now u1 u2 og on) w)
    as [[r ->]|(u & _ & ->)]; [by left|].
  destruct (createGreetingInputSchema body) as [v|] eqn:Hv.
  - destruct og.
    + rewrite (post_greetings_handler_ok _ _ _ _ _ _ _ _ Hv). cbn zeta.
      case_bool_decide as Hty; [|by left].
      destruct on; [|by left]. right. by exists v.
    + left. rewrite post_greetings_handler_fail; [done|by rewrite Hv].
  - left. unfold post_greetings_handler. rewrite Hv. by unfold_m.
Qed.

Lemma mark_read_ok E a nid r now oa u w :
  (authenticateToken E a oa w).1 = Done (inr u) →
  Notifications (w_db (mark_read E a nid r now oa true w).2)
  = (update_where
       (λ n, bool_decide (n_id n = nid) && bool_decide (n_user_id n = u_id u))
       (with_read_at (or_else r now)) (Notifications (w_db w))).1.
Proof.
  intros Hu. unfold mark_read. rewrite (route_authenticated _ _ _ _ _ _ Hu).
  unfold mark_read_handler, mark_read_sql. unfold_m. simpl.
  by destruct (with_read_at (or_else r now) <$> filter _ _).
Qed.

Lemma mark_read_notifications E a nid r now oa ok w :
  Notifications (w_db (mark_read E a nid r now oa ok w).2)
  = Notifications (w_db w) ∨
  ∃ u, ok = true ∧
       Notifications (w_db (mark_read E a nid r now oa ok w).2)
       = (update_where
            (λ n, bool_decide (n_id n = nid) && bool_decide (n_user_id n = u_id u))
            (with_read_at (or_else r now)) (Notifications (w_db w))).1.
Proof.
  destruct (route_cases E a oa (mark_read_handler nid r now ok) w)
    as [[resp Hr]|(u & Hu & Hr)].
  - left. unfold mark_read. by rewrite Hr.
  - destruct ok.
    + right. exists u. split; [done|]. by apply mark_read_ok.
    + left. unfold mark_read. rewrite Hr. unfold mark_read_handler. by unfold_m.
Qed.

(** C8: a greeting created for a recipient of type [user] gets one new
    Notification row, for the recipient, referencing the greeting, with
    [read_at] null; a greeting created for any other recipient type gets
    none; and no other operation adds a row to Notifications. *)
Theorem notification_iff_user_recipient E a oa u body v now u1 u2 w :
  (authenticateToken E a oa w).1 = Done (inr u) →
  createGreetingInputSchema body = Some v →
  (cg_recipient_type v = "user" →
   Notifications (w_db (post_greetings E a body now u1 u2 oa true true w).2)
   = Notifications (w_db w)
     ++ [mkNotification u2 (cg_recipient_id v) (g_id (greeting_row v now u1))
           "You received a new greeting!" None now]) ∧
  (cg_recipient_type v ≠ "user" →
   Notifications (w_db (post_greetings E a body now u1 u2 oa true true w).2)
   = Notifications (w_db w)) ∧
  (∀ op w0,
     length (Notifications (w_db (step E op w0)))
     ≠ length (Notifications (w_db w0)) →
     ∃ a' body' now' u1' u2' oa' og' on',
       op = PostGreetings a' body' now' u1' u2' oa' og' on' ∧
       rg_recipient_type body' = Some "user").
Proof.
  intros Hu Hv. split_and!.
  - intros Hty. unfold post_greetings.
    rewrite (route_authenticated _ _ _ _ _ _ Hu).
    rewrite (post_greetings_handler_ok _ _ _ _ _ _ _ _ Hv). cbn zeta.
    by rewrite bool_decide_eq_true_2.
  - intros Hty. unfold post_greetings.
    rewrite (route_authenticated _ _ _ _ _ _ Hu).
    rewrite (post_greetings_handler_ok _ _ _ _ _ _ _ _ Hv). cbn zeta.
    by rewrite bool_decide_eq_false_2.
  - intros op w0 Hlen. pose proof (step_same_notifications E op w0) as Hsame.
    destruct op; try (by rewrite Hsame in Hlen); cbn [step] in Hlen.
    + destruct (post_greetings_notifications E authHeader body0 now0 uuid1 uuid2
                  ok_auth ok_greeting ok_notification w0)
        as [Heq|(v' & Hv' & Hty & _)]; [by rewrite Heq in Hlen|].
      apply createGreetingInputSchema_Some in Hv' as (_ & _ & Hrt & _).
      rewrite Hty in Hrt. eauto 10.
    + destruct (mark_read_notifications E authHeader notification_id read_at
                  now0 ok_auth ok w0) as [Heq|(u' & _ & Heq)];
        rewrite Heq in Hlen; [done|].
      by rewrite update_where_length in Hlen.
Qed.

Lemma notification_iff_user_recipient_witness :
  Notifications (w_db Sample.notified)
  = Notifications (w_db Sample.online)
    ++ [mkNotification "uuid-n" "user2" "greet5" "You received a new greeting!"
          None "2023-10-06T12:00:00Z"].
Proof.
  assert ((authenticateToken Sample.collab (Some "Bearer t:user1") true
             Sample.online).1 = Done (inr Sample.user1)) as Hu
    by (by vm_compute).
  destruct (notification_iff_user_recipient Sample.collab
              (Some "Bearer t:user1") true Sample.user1 Sample.card
              (mkCreateGreeting "greet5" (Some "{text: Get well soon!}")
                 "user1" "user" "user2" "delivered" None)
              "2023-10-06T12:00:00Z" "uuid-g" "uuid-n" Sample.online
              Hu eq_refl) as [Huser _].
  exact (Huser eq_refl).
Defined.

(** C9, as the code has it: [read_at] is null in every row when the row is
    created; no row of Notifications is ever removed, and a row changes only
    through mark-read, which sets [read_at] to a non-null value (the
    [read_at] of the request, or the time of the request) in every row with
    the given id that belongs to the caller, whether or not it was set
    before. *)
Theorem read_at_lifecycle E op w :
  (∀ i n, Notifications (w_db w) !! i = Some n →
     ∃ n', Notifications (w_db (step E op w)) !! i = Some n' ∧
           (n' = n ∨
            ∃ a nid r now oa,
              op = MarkRead a nid r now oa true ∧ n_id n = nid ∧
              n' = with_read_at (or_else r now) n)) ∧
  (∀ j n', (length (Notifications (w_db w)) ≤ j)%nat →
     Notifications (w_db (step E op w)) !! j = Some n' →
     n_read_at n' = None) ∧
  (∀ a nid r now oa u n,
     op = MarkRead a nid r now oa true →
     (authenticateToken E a oa w).1 = Done (inr u) →
     n ∈ Notifications (w_db w) → n_id n = nid → n_user_id n = u_id u →
     with_read_at (or_else r now) n ∈ Notifications (w_db (step E op w))).
Proof.
  assert (Notifications (w_db (step E op w)) = Notifications (w_db w) ∨
          (∃ a body now u1 u2 oa og on v,
             op = PostGreetings a body now u1 u2 oa og on ∧
             Notifications (w_db (step E op w))
             = Notifications (w_db w) ++ [notification_row v now u1 u2]) ∨
          (∃ a nid r now oa u,
             op = MarkRead a nid r now oa true ∧
             Notifications (w_db (step E op w))
             = (update_where
                  (λ n, bool_decide (n_id n = nid)
                        && bool_decide (n_user_id n = u_id u))
                  (with_read_at (or_else r now)) (Notifications (w_db w))).1))
    as Hcases.
  { pose proof (step_same_notifications E op w) as Hsame.
    destruct op; try (by left); cbn [step].
    - destruct (post_greetings_notifications E authHeader body now uuid1 uuid2
                  ok_auth ok_greeting ok_notification w)
        as [Heq|(v & _ & _ & Heq)]; [by left|]. right. left. eauto 12.
    - destruct (mark_read_notifications E authHeader notification_id read_at
                  now ok_auth ok w) as [Heq|(u & -> & Heq)]; [by left|].
      right. right. eauto 10. }
  split_and!.
  - intros i n Hi. destruct Hcases as [Heq|[Hpost|Hread]].
    + exists n. rewrite Heq. eauto.
    + destruct Hpost as (a & body & now & u1 & u2 & oa & og & on & v & _ & Heq).
      exists n. rewrite Heq. split; [|by left].
      by apply lookup_app_l_Some.
    + destruct Hread as (a & nid & r & now & oa & u & Hop & Heq).
      rewrite Heq, (update_where_lookup _ _ _ _ _ Hi).
      destruct (bool_decide (n_id n = nid) && bool_decide (n_user_id n = u_id u))
        eqn:Hp; [|eauto].
      apply andb_true_iff in Hp as [Hid%bool_decide_eq_true _].
      eexists. split; [done|]. right. eauto 10.
  - intros j n' Hj Hn'. destruct Hcases as [Heq|[Hpost|Hread]].
    + rewrite Heq in Hn'. apply lookup_lt_Some in Hn'. lia.
    + destruct Hpost as (a & body & now & u1 & u2 & oa & og & on & v & _ & Heq).
      rewrite Heq in Hn'. apply lookup_app_Some in Hn' as [Hn'|[_ Hn']].
      * apply lookup_lt_Some in Hn'. lia.
      * apply list_lookup_singleton_Some in Hn' as [_ <-]. done.
    + destruct Hread as (a & nid & r & now & oa & u & _ & Heq).
      rewrite Heq in Hn'. apply lookup_lt_Some in Hn'.
      rewrite update_where_length in Hn'. lia.
  - intros a nid r now oa u n -> Hu Hn Hid Huid. cbn [step].
    rewrite (mark_read_ok _ _ _ _ _ _ _ _ Hu).
    apply update_where_hit; [done|].
    apply andb_true_iff. split; by apply bool_decide_eq_true.
Qed.

Lemma read_at_lifecycle_witness :
  with_read_at "2023-10-08T09:30:00Z"
    (mkNotification "uuid-n" "user2" "greet5" "You received a new greeting!"
       (Some "2023-10-07T08:00:00Z") "2023-10-06T12:00:00Z")
  ∈ Notifications (w_db Sample.read_twice).
Proof.
  destruct (read_at_lifecycle Sample.collab
              (MarkRead (Some "Bearer t:user2") "uuid-n" None
                 "2023-10-08T09:30:00Z" true true) Sample.read_once)
    as (_ & _ & Hset).
  apply (Hset (Some "Bearer t:user2") "uuid-n" None "2023-10-08T09:30:00Z" true
           Sample.user2); [done|by vm_compute| |done|done].
  vm_compute. left.
Defined.

(** C9, as stated, fails: the notification of user2 is read at 08:00 on the
    7th; a second mark-read replaces that value by 09:30 on the 8th. *)
Lemma read_at_overwritten :
  n_read_at <$> Notifications (w_db Sample.notified) = [None] ∧
  n_read_at <$> Notifications (w_db Sample.read_once)
  = [Some "2023-10-07T08:00:00Z"] ∧
  n_read_at <$> Notifications (w_db Sample.read_twice)
  = [Some "2023-10-08T09:30:00Z"].
Proof. by vm_compute. Qed.

(** ** Persisting before emitting *)

(** C5, as the code has it: four paths write the status of a greeting, the
    socket handler [update_greeting_status], the PUT route, the creation
    route and [admin_moderate] with the action [approved]. On each the write
    comes first. When it fails the store is as before and nothing is
    broadcast: the socket handlers tell their caller with an [error] reply,
    the routes answer 500. When it succeeds, the first three emit exactly one
    event with the greeting, sent to all connected sockets and carrying the
    row as stored with the new status (on creation, the only other emit is
    the [notification] one). The moderation path sets the status of the rows
    with that id to [sent] and emits one [admin_moderation_action] with the
    id and the action word, whether or not a row has that id: no event with
    the greeting or its status. *)
Theorem persist_then_emit E w :
  (∀ sid s data now,
     find_socket sid w = Some s →
     let w' := step E (UpdateGreetingStatus sid data now false) w in
     w_db w' = w_db w ∧
     emitted w w'
     = [mkEmission (ToSocket sid) "error"
          (PError "Failed to update greeting status") [sid]]) ∧
  (∀ sid s g st now,
     find_socket sid w = Some s → g ∈ Greetings (w_db w) →
     let w' := step E (UpdateGreetingStatus sid
                         (Some (mkStatusUpdate (g_id g) st)) now true) w in
     ∃ g1, g1 ∈ Greetings (w_db w') ∧ g_id g1 = g_id g ∧ g_status g1 = st ∧
           emitted w w'
           = [mkEmission ToAll ("greeting_" +:+ g_id g +:+ "_status")
                (PGreeting g1) (connected w)]) ∧
  (∀ a oa u gid body now,
     (authenticateToken E a oa w).1 = Done (inr u) →
     updateGreetingInputSchema body ≠ None →
     put_greeting E a gid body now oa false w = (internal_error, w)) ∧
  (∀ a oa u g body v st now,
     (authenticateToken E a oa w).1 = Done (inr u) →
     g ∈ Greetings (w_db w) →
     updateGreetingInputSchema body = Some v → ug_status v = Some st →
     let r := put_greeting E a (g_id g) body now oa true w in
     ∃ g1, g1 ∈ Greetings (w_db r.2) ∧ g_id g1 = g_id g ∧ g_status g1 = st ∧
           r.1 = mkResp 200 (BGreeting g1) ∧
           emitted w r.2
           = [mkEmission ToAll ("greeting_" +:+ g_id g +:+ "_updated")
                (PGreeting g1) (connected w)]) ∧
  (∀ a oa u body now u1 u2 on,
     (authenticateToken E a oa w).1 = Done (inr u) →
     createGreetingInputSchema body ≠ None →
     post_greetings E a body now u1 u2 oa false on w = (internal_error, w)) ∧
  (∀ a oa u body v now u1 u2 on,
     (authenticateToken E a oa w).1 = Done (inr u) →
     createGreetingInputSchema body = Some v →
     let r := post_greetings E a body now u1 u2 oa true on w in
     greeting_row v now u1 ∈ Greetings (w_db r.2) ∧
     g_status (greeting_row v now u1) = cg_status v ∧
     ∃ rest, emitted w r.2
             = mkEmission ToAll "greeting_created"
                 (PGreeting (greeting_row v now u1)) (connected w) :: rest ∧
             Forall (λ em, em_event em = "notification") rest) ∧
  (∀ sid s gid,
     find_socket sid w = Some s → u_role (sock_user s) = "admin" →
     let w' := step E (AdminModerate sid
                         (Some (mkModeration gid "approved")) false) w in
     w_db w' = w_db w ∧
     emitted w w'
     = [mkEmission (ToSocket sid) "error"
          (PError "Moderation action failed") [sid]]) ∧
  (∀ sid s gid,
     find_socket sid w = Some s → u_role (sock_user s) = "admin" →
     let w' := step E (AdminModerate sid
                         (Some (mkModeration gid "approved")) true) w in
     Greetings (w_db w')
     = (λ g, if bool_decide (g_id g = gid)
             then with_status "sent" (g_updated_at g) g else g)
       <$> Greetings (w_db w) ∧
     emitted w w'
     = [mkEmission ToAll "admin_moderation_action"
          (PModeration gid "approved") (connected w)]).
Proof.
  split_and!.
  - intros sid s data now Hs. cbn zeta. cbn [step].
    rewrite (on_socket_found _ _ _ _ Hs), update_greeting_status_fail.
    rewrite (find_socket_id _ _ _ Hs). split; [done|]. by apply emitted_one.
  - intros sid s g st now Hs Hg.
    by destruct (socket_status_update_run E w g st now sid s Hs Hg)
      as (_ & _ & Hex).
  - intros a oa u gid body now Hu Hv. unfold put_greeting.
    rewrite (route_authenticated _ _ _ _ _ _ Hu).
    by apply put_greeting_handler_fail.
  - intros a oa u g body v st now Hu Hg Hv Hst.
    by destruct (put_status_update_run E w g st now a oa u body v Hu Hg Hv Hst)
      as (_ & _ & Hex).
  - intros a oa u body now u1 u2 on Hu Hv. unfold post_greetings.
    rewrite (route_authenticated _ _ _ _ _ _ Hu).
    by apply post_greetings_handler_fail.
  - intros a oa u body v now u1 u2 on Hu Hv. cbn zeta. unfold post_greetings.
    rewrite (route_authenticated _ _ _ _ _ _ Hu).
    rewrite (post_greetings_handler_ok _ _ _ _ _ _ _ _ Hv). cbn zeta.
    assert (greeting_row v now u1
            ∈ Greetings (w_db w) ++ [greeting_row v now u1]) as Hin
      by (apply elem_of_app; right; left).
    case_bool_decide; [destruct on|]; (split_and!; [done|done|]).
    + eexists [_]. split; [by apply emitted_two|]. by apply Forall_singleton.
    + exists []. split; [by apply emitted_one|]. done.
    + exists []. split; [by apply emitted_one|]. done.
  - intros sid s gid Hs Hrole. cbn zeta. cbn [step].
    rewrite (on_socket_found _ _ _ _ Hs).
    unfold admin_moderate, approve_sql. unfold_m.
    rewrite bool_decide_eq_false_2 by (by intros ?). simpl.
    rewrite (find_socket_id _ _ _ Hs). split; [done|]. by apply emitted_one.
  - intros sid s gid Hs Hrole. cbn zeta. cbn [step].
    rewrite (on_socket_found _ _ _ _ Hs).
    unfold admin_moderate, approve_sql. unfold_m.
    rewrite bool_decide_eq_false_2 by (by intros ?). simpl.
    split; [done|]. by apply emitted_one.
Qed.

Lemma persist_then_emit_witness :
  (let w' := step Sample.collab
               (UpdateGreetingStatus "s1"
                  (Some (mkStatusUpdate "greet1" "delivered"))
                  "2023-10-06T10:00:00Z" false) Sample.online in
   w_db w' = w_db Sample.online ∧
   emitted Sample.online w'
   = [mkEmission (ToSocket "s1") "error"
        (PError "Failed to update greeting status") ["s1"]]) ∧
  ∃ g1, g1 ∈ Greetings (w_db (step Sample.collab Sample.deliver_greet1
                               Sample.online)) ∧
        g_id g1 = "greet1" ∧ g_status g1 = "delivered" ∧
        emitted Sample.online
          (step Sample.collab Sample.deliver_greet1 Sample.online)
        = [mkEmission ToAll "greeting_greet1_status" (PGreeting g1)
             (connected Sample.online)].
Proof.
  destruct (persist_then_emit Sample.collab Sample.online)
    as (Hfail & Hok & _).
  split.
  - apply (Hfail "s1" (mkSocket "s1" Sample.user1 ({[ "s1" ]} ∪ {[ "user1" ]}))).
    done.
  - apply (Hok "s1" (mkSocket "s1" Sample.user1 ({[ "s1" ]} ∪ {[ "user1" ]}))
             Sample.greet1 "delivered" "2023-10-06T10:00:00Z"); [done|left].
Defined.

(** C5, as stated, fails on the moderation path: the admin approves greet2,
    stored as [pending]; its status becomes [sent], and the one event emitted
    is the moderation action, which carries the id and the action word and
    neither the greeting nor its status. *)
Lemma approval_emits_no_status_event :
  g_status <$> filter (λ g, g_id g = "greet2")
                 (Greetings (w_db Scenes.moderated))
  = ["pending"] ∧
  g_status <$> filter (λ g, g_id g = "greet2")
    (Greetings
       (w_db (step Sample.collab
                (AdminModerate "s5" (Some (mkModeration "greet2" "approved"))
                   true) Scenes.moderated)))
  = ["sent"] ∧
  (λ em, (em_event em, em_payload em)) <$>
    emitted Scenes.moderated
      (step Sample.collab
         (AdminModerate "s5" (Some (mkModeration "greet2" "approved")) true)
         Scenes.moderated)
  = [("admin_moderation_action", PModeration "greet2" "approved")].
Proof. by vm_compute. Qed.

(** * Further properties of the handlers *)

(** ** Rooms: joining, leaving, connecting, disconnecting *)

Lemma subscribed_update_rooms sid f w c g :
  subscribed (update_rooms sid f w) c g ↔
  ∃ s, s ∈ w_sockets w ∧ sock_id s = c ∧
       g ∈ (if bool_decide (sock_id s = sid) then f (sock_rooms s)
            else sock_rooms s).
Proof.
  unfold subscribed, update_rooms. simpl. split.
  - intros (s' & (s & -> & Hs)%list_elem_of_fmap & Hc & Hg).
    exists s. split; [done|]. by case_bool_decide.
  - intros (s & Hs & Hc & Hg).
    exists (if bool_decide (sock_id s = sid)
            then mkSocket (sock_id s) (sock_user s) (f (sock_rooms s)) else s).
    split_and!.
    + apply list_elem_of_fmap. by exists s.
    + by case_bool_decide.
    + by case_bool_decide.
Qed.

Lemma connected_update_rooms sid f w :
  connected (update_rooms sid f w) = connected w.
Proof.
  unfold connected, update_rooms. simpl. rewrite <- list_fmap_compose.
  apply list_fmap_ext. intros i s _. simpl. by case_bool_decide.
Qed.

(** X1: [join_group] and [leave_group] change the subscription of one
    socket to one room and nothing else: after a join, the subscribers of any
    room are those of before plus, for the joined room, the joining socket if
    it is connected; after a leave, they are those of before minus the
    leaving socket for the left room. Neither changes who is connected. *)
Theorem join_leave_membership c g w c' g' :
  (c' ∈ resolve (join_group c g w) g' ↔
   c' ∈ resolve w g' ∨ (c' = c ∧ g' = g ∧ c ∈ connected w)) ∧
  (c' ∈ resolve (leave_group c g w) g' ↔
   c' ∈ resolve w g' ∧ ¬ (c' = c ∧ g' = g)) ∧
  connected (join_group c g w) = connected w ∧
  connected (leave_group c g w) = connected w.
Proof.
  split_and!; [| |apply connected_update_rooms..].
  - rewrite !elem_of_resolve. unfold join_group.
    rewrite subscribed_update_rooms, elem_of_connected. split.
    + intros (s & Hs & Hc & Hg). case_bool_decide as Hsid.
      * apply elem_of_union in Hg as [Hg|Hg%elem_of_singleton].
        -- left. by exists s.
        -- right. split_and!; [congruence|done|]. exists s. split; congruence.
      * left. by exists s.
    + intros [(s & Hs & Hc & Hg)|(-> & -> & s & Hs & Hc)].
      * exists s. split_and!; [done..|]. case_bool_decide; [|done].
        apply elem_of_union. by left.
      * exists s. split_and!; [done..|]. rewrite bool_decide_eq_true_2 by done.
        apply elem_of_union. right. by apply elem_of_singleton.
  - rewrite !elem_of_resolve. unfold leave_group.
    rewrite subscribed_update_rooms. split.
    + intros (s & Hs & Hc & Hg). case_bool_decide as Hsid.
      * apply elem_of_difference in Hg as [Hg Hne]. split; [by exists s|].
        intros [_ ->]. apply Hne. by apply elem_of_singleton.
      * split; [by exists s|]. intros [-> _]. done.
    + intros [(s & Hs & Hc & Hg) Hne]. exists s. split_and!; [done..|].
      case_bool_decide as Hsid; [|done]. apply elem_of_difference.
      split; [done|]. intros ->%elem_of_singleton. apply Hne. split; congruence.
Qed.

(** X2: when a connection attempt is accepted, the store has resolved its
    token to a user, and the new socket is subscribed to exactly two rooms,
    the one named after the socket and the one named after that user; the
    subscribers of every room are otherwise as before. *)
Theorem accepted_socket_rooms E token sid ok w w' :
  on_connect E token sid ok w = (Accepted, w') →
  ∃ u, identity_resolves E token ok (w_db w) u ∧
       w_db w' = w_db w ∧ w_log w' = w_log w ∧
       connected w' = connected w ++ [sid] ∧
       ∀ r, resolve w' r
            = resolve w r ++ if bool_decide (r = sid ∨ r = u_id u) then [sid]
                             else [].
Proof.
  unfold on_connect, io_use. unfold_m. intros H.
  destruct token as [t|]; simpl in H; [|by simplify_eq].
  case_bool_decide as Ht; [by simplify_eq|].
  destruct (jwt_verify E t) as [[uid]|] eqn:Hv; [|by simplify_eq].
  destruct ok; [|by simplify_eq].
  destruct uid as [uid|]; simpl in H; [|by simplify_eq].
  destruct (filter _ (Users (w_db w))) as [|u rows] eqn:Hrows; simplify_eq/=.
  exists u. split_and!; try done.
  - exists t, (mkJwt (Some uid)), uid. by rewrite Hrows.
  - unfold connected. simpl. by rewrite fmap_app.
  - intros r. unfold resolve. simpl. rewrite filter_app, fmap_app. f_equal.
    unfold in_room. simpl. rewrite filter_cons, filter_nil.
    assert (r ∈ ({[ sid ]} ∪ {[ u_id u ]} : gset string) ↔ r = sid ∨ r = u_id u)
      as Hin by (by rewrite elem_of_union, !elem_of_singleton).
    destruct (decide (r = sid ∨ r = u_id u)) as [Hor|Hnor].
    + rewrite (bool_decide_eq_true_2 _ Hor).
      rewrite decide_True; [done|]. apply bool_decide_eq_true. by apply Hin.
    + rewrite (bool_decide_eq_false_2 _ Hnor).
      rewrite decide_False; [done|]. rewrite bool_decide_eq_true. by rewrite Hin.
Qed.

Lemma accepted_socket_rooms_witness :
  ∃ u, identity_resolves Sample.collab (Some "t:user2") true
         (w_db Sample.online) u ∧
       ∀ r, resolve (on_connect Sample.collab (Some "t:user2") "s9" true
                       Sample.online).2 r
            = resolve Sample.online r
              ++ if bool_decide (r = "s9" ∨ r = u_id u) then ["s9"] else [].
Proof.
  destruct (accepted_socket_rooms Sample.collab (Some "t:user2") "s9" true
              Sample.online
              (on_connect Sample.collab (Some "t:user2") "s9" true
                 Sample.online).2)
    as (u & Hu & _ & _ & _ & Hr); [by vm_compute|].
  by exists u.
Defined.

#[local] Instance reaches_connected_preorder c : PreOrder (reaches_connected c).
Proof.
  split.
  - intros w _. split; [done|]. exists []. by rewrite app_nil_r.
  - intros w1 w2 w3 H12 H23 Hc.
    destruct (H12 Hc) as (Hs1 & e1 & Hl1 & Hd1).
    assert (connected w2 = connected w1) as Hcon
      by (unfold connected; by rewrite Hs1).
    destruct H23 as (Hs2 & e2 & Hl2 & Hd2).
    { intros sid Hsid. rewrite Hcon. by apply Hc. }
    split; [congruence|]. exists (e1 ++ e2).
    split; [by rewrite Hl2, Hl1, app_assoc|].
    apply Forall_app. split; [done|]. by rewrite Hcon in Hd2.
Qed.







Lemma find_socket_connected sid w s : find_socket sid w = Some s → sid ∈ connected w.
Proof.
  unfold find_socket. intros Hs.
  destruct (filter (λ s0, sock_id s0 = sid) (w_sockets w)) as [|s' l] eqn:Hf;
    simplify_eq/=.
  assert (s ∈ filter (λ s0, sock_id s0 = sid) (w_sockets w)) as Hin
    by (rewrite Hf; left).
  apply list_elem_of_filter in Hin as [<- Hin]. apply elem_of_connected. eauto.
Qed.





Lemma run_log E ops : ∀ w, ∃ ems, w_log (run E ops w) = w_log w ++ ems.
Proof.
  induction ops as [|op ops IH]; intros w.
  - exists []. by rewrite app_nil_r.
  - destruct (step_log E op w) as (e1 & Hl1 & _).
    destruct (IH (step E op w)) as [e2 Hl2].
    exists (e1 ++ e2). by rewrite run_cons, Hl2, Hl1, app_assoc.
Qed.



Lemma filter_none {A} (P : A → Prop) `{!∀ x, Decision (P x)} (l : list A) :
  Forall (λ x, ¬ P x) l → filter P l = [].
Proof.
  induction 1 as [|x l Hx _ IH]; [done|].
  by rewrite filter_cons, decide_False, IH.
Qed.



Lemma stays_out_unsubscribed E c g op w :
  stays_out c g op → ¬ subscribed w c g → ¬ subscribed (step E op w) c g.
Proof.
  intros Hop Hno. destruct (socket_op op) eqn:Hsock.
  - destruct op; try done; cbn [step stays_out] in *.
    + intros (s & Hs & Hc & Hg).
      destruct (on_connect_sockets E token sid ok w) as [Hw|[u Hw]];
        rewrite Hw in Hs.
      * apply Hno. by exists s.
      * apply elem_of_app in Hs as [Hs|Hs%list_elem_of_singleton].
        -- apply Hno. by exists s.
        -- subst s. done.
    + intros (s & Hs & Hc & Hg). simpl in Hs.
      apply list_elem_of_filter in Hs as [_ Hs]. apply Hno. by exists s.
    + unfold join_group. rewrite subscribed_update_rooms.
      intros (s & Hs & Hc & Hg). case_bool_decide as Hsid.
      * apply elem_of_union in Hg as [Hg|Hg%elem_of_singleton].
        -- apply Hno. by exists s.
        -- apply Hop. split; congruence.
      * apply Hno. by exists s.
    + unfold leave_group. rewrite subscribed_update_rooms.
      intros (s & Hs & Hc & Hg). apply Hno. exists s. split_and!; [done..|].
      case_bool_decide; [|done]. by apply elem_of_difference in Hg as [Hg _].
  - destruct (step_extends E op w Hsock) as [Hs _].
    intros (s & Hin & Hc & Hg). apply Hno. exists s. by rewrite <- Hs.
Qed.

Lemma run_log_unsubscribed E c g ops : ∀ w,
  Forall (stays_out c g) ops → ¬ subscribed w c g →
  ∀ em, em ∈ emitted w (run E ops w) → em_target em = ToRoom g → c ∉ em_to em.
Proof.
  induction ops as [|op ops IH]; intros w Hops Hno em Hem Ht.
  - emitted_compute. by apply elem_of_nil in Hem.
  - apply Forall_cons in Hops as [Hop Hops].
    destruct (step_log E op w) as (e1 & Hl1 & Hd1).
    destruct (run_log E ops (step E op w)) as [e2 Hl2].
    rewrite run_cons in Hem.
    rewrite (emitted_app w _ (e1 ++ e2)) in Hem
      by (by rewrite Hl2, Hl1, app_assoc).
    apply elem_of_app in Hem as [Hem|Hem].
    + rewrite Forall_forall in Hd1. rewrite (Hd1 em Hem), Ht. simpl.
      by rewrite elem_of_resolve.
    + apply (IH (step E op w) Hops (stays_out_unsubscribed E c g op w Hop Hno));
        [|done].
      by rewrite (emitted_app _ _ _ Hl2).
Qed.

(** X4: [leave_group] takes the socket out of the room whatever the room is,
    the room named after its own user included: from then on no event sent to
    that room (for the personal room, the [notification] events of the user)
    is delivered to the socket, until it joins the room or reconnects. *)
Theorem leave_stops_delivery E c g w ops :
  Forall (stays_out c g) ops →
  (c ∉ resolve (leave_group c g w) g) ∧
  ∀ em, em ∈ emitted (leave_group c g w) (run E ops (leave_group c g w)) →
        em_target em = ToRoom g → c ∉ em_to em.
Proof.
  intros Hops.
  assert (¬ subscribed (leave_group c g w) c g) as Hno.
  { unfold leave_group. rewrite subscribed_update_rooms.
    intros (s & Hs & Hc & Hg). rewrite bool_decide_eq_true_2 in Hg by done.
    apply elem_of_difference in Hg as [_ Hg]. apply Hg.
    by apply elem_of_singleton. }
  split; [by rewrite elem_of_resolve|]. by apply run_log_unsubscribed.
Qed.

Lemma leave_stops_delivery_witness :
  sock_user <$> find_socket "s2" Sample.online = Some Sample.user2 ∧
  ∀ em, em ∈ emitted (leave_group "s2" "user2" Sample.online)
               (run Sample.collab [Sample.post_card Sample.card true]
                  (leave_group "s2" "user2" Sample.online)) →
        em_target em = ToRoom "user2" → "s2" ∉ em_to em.
Proof.
  split; [by vm_compute|].
  apply (leave_stops_delivery Sample.collab "s2" "user2" Sample.online
           [Sample.post_card Sample.card true]).
  repeat constructor.
Defined.

(** ** Authentication of the routes *)


Lemma authenticateToken_accepts E a ok w u :
  (authenticateToken E a ok w).1 = Done (inr u) →
  identity_resolves E (bearer_token a) ok (w_db w) u.
Proof.
  unfold authenticateToken. unfold_m. intros H.
  destruct (bearer_token a) as [t|] eqn:Hb; simpl in H; [|done].
  case_bool_decide as Ht; [done|].
  destruct (jwt_verify E t) as [[uid]|] eqn:Hv; [|done].
  destruct ok; [|done].
  destruct uid as [uid|]; simpl in H; [|done].
  destruct (filter _ (Users (w_db w))) as [|u' rows] eqn:Hrows; simplify_eq/=.
  exists t, (mkJwt (Some uid)), uid. by rewrite Hrows.
Qed.



Lemma string_app_nil_r s : s +:+ "" = s.
Proof.
  induction s as [|c s IH]; [done|].
  change (String c (s +:+ "") = String c s). by rewrite IH.
Qed.

Lemma string_app_assoc s1 s2 s3 : (s1 +:+ s2) +:+ s3 = s1 +:+ s2 +:+ s3.
Proof.
  induction s1 as [|c s1 IH]; [done|].
  change (String c ((s1 +:+ s2) +:+ s3) = String c (s1 +:+ s2 +:+ s3)).
  by rewrite IH.
Qed.

Lemma split_space_go_no_space cur s :
  has_space s = false → split_space_go cur s = [cur +:+ s].
Proof.
  revert cur. induction s as [|c s IH]; intros cur Hs; simpl in *.
  - by rewrite string_app_nil_r.
  - apply orb_false_iff in Hs as [Hc Hs]. rewrite Hc, (IH _ Hs).
    by rewrite string_app_assoc.
Qed.

Lemma split_space_go_app cur s1 s2 :
  has_space s1 = false →
  split_space_go cur (s1 +:+ " " +:+ s2)
  = (cur +:+ s1) :: split_space_go "" s2.
Proof.
  revert cur. induction s1 as [|c s1 IH]; intros cur Hs.
  - change (split_space_go cur (String " " s2)
            = (cur +:+ "") :: split_space_go "" s2).
    by rewrite string_app_nil_r.
  - change (split_space_go cur (String c (s1 +:+ " " +:+ s2))
            = (cur +:+ String c s1) :: split_space_go "" s2).
    simpl in *. apply orb_false_iff in Hs as [Hc Hs]. rewrite Hc, (IH _ Hs).
    by rewrite string_app_assoc.
Qed.

(** X6: [authenticateToken] takes as token the second space-separated word
    of the Authorization header and never looks at the first: any scheme
    word, or none, in front of the space gives the same token. A header
    without a space has no token. *)
Theorem bearer_token_ignores_scheme scheme t h :
  has_space scheme = false → has_space t = false → has_space h = false →
  bearer_token (Some (scheme +:+ " " +:+ t)) = Some t ∧
  falsy (bearer_token (Some h)) = true.
Proof.
  intros Hs Ht Hh. split.
  - unfold bearer_token, split_space.
    rewrite bool_decide_eq_false_2 by (by destruct scheme).
    rewrite (split_space_go_app _ _ _ Hs), (split_space_go_no_space _ _ Ht).
    done.
  - unfold bearer_token, split_space. case_bool_decide; [done|].
    by rewrite (split_space_go_no_space _ _ Hh).
Qed.

Lemma bearer_token_ignores_scheme_witness :
  bearer_token (Some ("Basic" +:+ " " +:+ "t:user1")) = Some "t:user1" ∧
  falsy (bearer_token (Some "t:user1")) = true.
Proof. by apply (bearer_token_ignores_scheme "Basic" "t:user1" "t:user1"). Defined.

(** ** Marking a notification as read *)

Lemma update_where_miss {A} (p : A → bool) (f : A → A) (rows : list A) :
  Forall (λ r, p r = false) rows →
  update_where p f rows = (rows, []).
Proof.
  intros Hall. unfold update_where. f_equal.
  - induction Hall as [|r rows Hr _ IH]; [done|].
    rewrite fmap_cons, Hr. by f_equal.
  - rewrite filter_none; [done|].
    eapply Forall_impl; [exact Hall|]. simpl. intros r ->. done.
Qed.

Lemma mark_read_handler_ok nid r now u w :
  exec (mark_read_handler nid r now true u) internal_error w
  = let upd := update_where
                 (λ n, bool_decide (n_id n = nid)
                       && bool_decide (n_user_id n = u_id u))
                 (with_read_at (or_else r now)) (Notifications (w_db w)) in
    (match upd.2 with
     | [] => mkResp 404 (BError "Notification not found" "NOTIFICATION_NOT_FOUND")
     | n :: _ => mkResp 200 (BNotification n)
     end,
     set_db (set_notifications upd.1 (w_db w)) w).
Proof.
  unfold mark_read_handler, mark_read_sql. unfold_m. simpl.
  by destruct (with_read_at (or_else r now) <$> filter _ _).
Qed.

Lemma set_notifications_id d : set_notifications (Notifications d) d = d.
Proof. by destruct d. Qed.

(** X7: mark-read touches only the caller's own rows. Rows of other users,
    and rows with another id, stay as they are, also when they carry the
    requested id; and when no row with that id belongs to the caller the
    answer is 404 and the world is unchanged. *)
Theorem mark_read_owner_only E a nid r now oa u w :
  (authenticateToken E a oa w).1 = Done (inr u) →
  (∀ i n, Notifications (w_db w) !! i = Some n →
          n_user_id n ≠ u_id u ∨ n_id n ≠ nid →
          Notifications (w_db (mark_read E a nid r now oa true w).2) !! i
          = Some n) ∧
  (Forall (λ n, ¬ (n_id n = nid ∧ n_user_id n = u_id u))
     (Notifications (w_db w)) →
   mark_read E a nid r now oa true w
   = (mkResp 404 (BError "Notification not found" "NOTIFICATION_NOT_FOUND"),
      w)) ∧
  (∀ n, n ∈ Notifications (w_db w) → n_id n = nid → n_user_id n = u_id u →
        ∃ n', (mark_read E a nid r now oa true w).1
              = mkResp 200 (BNotification n') ∧
              n_id n' = nid ∧ n_user_id n' = u_id u ∧
              n_read_at n' = Some (or_else r now)).
Proof.
  intros Hu. unfold mark_read. rewrite (route_authenticated _ _ _ _ _ _ Hu).
  rewrite mark_read_handler_ok. cbn zeta.
  set (p := λ n, bool_decide (n_id n = nid) && bool_decide (n_user_id n = u_id u)).
  split_and!.
  - intros i n Hi Hother. cbn [snd w_db set_db Notifications set_notifications].
    rewrite (update_where_lookup _ _ _ _ _ Hi).
    assert (p n = false) as ->; [|done]. unfold p.
    apply andb_false_iff. destruct Hother.
    + right. by apply bool_decide_eq_false.
    + left. by apply bool_decide_eq_false.
  - intros Hnone. rewrite update_where_miss.
    + simpl. by rewrite set_notifications_id, set_db_id.
    + eapply Forall_impl; [exact Hnone|]. intros n Hn. unfold p.
      apply andb_false_iff.
      destruct (decide (n_id n = nid)) as [Hid|Hid].
      * right. apply bool_decide_eq_false. intros Hown. by apply Hn.
      * left. by apply bool_decide_eq_false.
  - intros n Hn Hid Hown.
    assert (p n = true) as Hp
      by (unfold p; apply andb_true_iff; split; by apply bool_decide_eq_true).
    pose proof (update_where_returning_nonempty p
                  (with_read_at (or_else r now)) _ n Hn Hp) as Hne.
    destruct (update_where p (with_read_at (or_else r now))
                (Notifications (w_db w))).2 as [|n' rows] eqn:Hrows; [done|].
    exists n'. split; [done|].
    assert (n' ∈ (update_where p (with_read_at (or_else r now))
                    (Notifications (w_db w))).2)
      as (n0 & _ & Hp0 & ->)%update_where_returning by (rewrite Hrows; left).
    unfold p in Hp0.
    apply andb_true_iff in Hp0 as [?%bool_decide_eq_true ?%bool_decide_eq_true].
    done.
Qed.

Lemma mark_read_owner_only_witness :
  mark_read Sample.collab (Some "Bearer t:user1") "uuid-n" None
    "2023-10-08T09:30:00Z" true true Sample.notified
  = (mkResp 404 (BError "Notification not found" "NOTIFICATION_NOT_FOUND"),
     Sample.notified).
Proof.
  assert ((authenticateToken Sample.collab (Some "Bearer t:user1") true
             Sample.notified).1 = Done (inr Sample.user1)) as Hu
    by (by vm_compute).
  destruct (mark_read_owner_only Sample.collab (Some "Bearer t:user1") "uuid-n"
              None "2023-10-08T09:30:00Z" true Sample.user1 Sample.notified Hu)
    as (_ & Hmiss & _).
  apply Hmiss. vm_compute. repeat constructor. by intros [_ [=]].
Defined.

(** ** Updating a greeting *)

Lemma set_greetings_id d : set_greetings (Greetings d) d = d.
Proof. by destruct d. Qed.

Lemma put_greeting_handler_invalid gid body now ok u w :
  updateGreetingInputSchema body = None →
  exec (put_greeting_handler gid body now ok u) internal_error w
  = (validation_error, w).
Proof. intros Hv. unfold put_greeting_handler. rewrite Hv. by unfold_m. Qed.

(** X8: the PUT route rewrites only the rows with the given id, and in them
    only content, status, [scheduled_at] and [updated_at]: id, sender,
    recipient and creation time of every stored greeting survive any PUT, and
    no row is added or removed. A body that the schema refuses (a status that
    is not one of the four, a null where a string is asked for) is answered
    400, an id that no row has is answered 404, and in both cases the world
    is unchanged. *)
Theorem put_greeting_frame E a gid body now oa ok u w :
  (authenticateToken E a oa w).1 = Done (inr u) →
  (∀ i g, Greetings (w_db w) !! i = Some g →
     ∃ g', Greetings (w_db (put_greeting E a gid body now oa ok w).2) !! i
           = Some g' ∧
           g_id g' = g_id g ∧ g_sender_id g' = g_sender_id g ∧
           g_recipient_type g' = g_recipient_type g ∧
           g_recipient_id g' = g_recipient_id g ∧
           g_created_at g' = g_created_at g ∧
           (g_id g ≠ gid → g' = g)) ∧
  length (Greetings (w_db (put_greeting E a gid body now oa ok w).2))
  = length (Greetings (w_db w)) ∧
  (updateGreetingInputSchema body = None →
   put_greeting E a gid body now oa ok w = (validation_error, w)) ∧
  (updateGreetingInputSchema body ≠ None →
   Forall (λ g, g_id g ≠ gid) (Greetings (w_db w)) →
   put_greeting E a gid body now oa true w
   = (mkResp 404 (BError "Greeting not found" "GREETING_NOT_FOUND"), w)).
Proof.
  intros Hu. unfold put_greeting. rewrite !(route_authenticated _ _ _ _ _ _ Hu).
  assert (∀ ok', Greetings (w_db (exec (put_greeting_handler gid body now ok' u)
                                internal_error w).2) = Greetings (w_db w) ∨
          ∃ v, Greetings (w_db (exec (put_greeting_handler gid body now ok' u)
                                  internal_error w).2)
               = (update_where (λ g, bool_decide (g_id g = gid))
                    (apply_update v now) (Greetings (w_db w))).1) as Hcases.
  { intros ok'. destruct (updateGreetingInputSchema body) as [v|] eqn:Hv.
    - destruct ok'.
      + right. exists v.
        rewrite (put_greeting_handler_ok _ _ _ _ _ _ Hv). cbn zeta.
        by destruct (update_where _ _ _).2.
      + left. rewrite put_greeting_handler_fail; [done|by rewrite Hv].
    - left. by rewrite put_greeting_handler_invalid. }
  split_and!.
  - intros i g Hi. destruct (Hcases ok) as [-> | [v ->]]; [by exists g|].
    rewrite (update_where_lookup _ _ _ _ _ Hi). case_bool_decide as Hid.
    + eexists. split; [done|]. by split_and!.
    + by exists g.
  - destruct (Hcases ok) as [-> | [v ->]]; [done|]. apply update_where_length.
  - apply put_greeting_handler_invalid.
  - intros Hv Hnone. destruct (updateGreetingInputSchema body) as [v|] eqn:Hv';
      [|done].
    rewrite (put_greeting_handler_ok _ _ _ _ _ _ Hv'). cbn zeta.
    rewrite update_where_miss.
    + simpl. by rewrite set_greetings_id, set_db_id.
    + eapply Forall_impl; [exact Hnone|]. intros g Hg.
      by apply bool_decide_eq_false.
Qed.

Lemma put_greeting_frame_witness :
  put_greeting Sample.collab (Some "Bearer t:user1") "greet9"
    (mkRawUpdate None None None None (Some (Some "sent")) None) "2023-10-06T12:00:00Z" true true
    Sample.online
  = (mkResp 404 (BError "Greeting not found" "GREETING_NOT_FOUND"),
     Sample.online).
Proof.
  assert ((authenticateToken Sample.collab (Some "Bearer t:user1") true
             Sample.online).1 = Done (inr Sample.user1)) as Hu
    by (by vm_compute).
  destruct (put_greeting_frame Sample.collab (Some "Bearer t:user1") "greet9"
              (mkRawUpdate None None None None (Some (Some "sent")) None) "2023-10-06T12:00:00Z"
              true true Sample.user1 Sample.online Hu) as (_ & _ & _ & Hmiss).
  apply Hmiss; [done|]. by repeat constructor.
Defined.

(** ** The stored statuses *)

#[local] Instance keeps_valid_preorder : PreOrder keeps_valid.
Proof.
  split; [intros w H; exact H|].
  intros w1 w2 w3 H12 H23 H. by apply H23, H12.
Qed.

Lemma statuses_valid_same d d' :
  Greetings d' = Greetings d → statuses_valid d → statuses_valid d'.
Proof. unfold statuses_valid. by intros ->. Qed.

Lemma query_keeps_valid {A} ok (f : Db → Db * A) :
  (∀ d, statuses_valid d → statuses_valid (f d).1) →
  preserves keeps_valid (query ok f).
Proof.
  intros Hf w Hw. unfold query. destruct ok; [|done].
  specialize (Hf (w_db w) Hw). by destruct (f (w_db w)) as [d a].
Qed.

Lemma emit_keeps_valid t ev p : preserves keeps_valid (emit t ev p).
Proof. intros w Hw. exact Hw. Qed.

Lemma update_where_valid p f (d : Db) :
  (∀ g, status_enum (g_status g) = true → p g = true →
        status_enum (g_status (f g)) = true) →
  statuses_valid d →
  statuses_valid (set_greetings (update_where p f (Greetings d)).1 d).
Proof.
  intros Hf Hd. unfold statuses_valid in *. simpl.
  apply Forall_fmap. eapply Forall_impl; [exact Hd|]. intros g Hg. simpl.
  destruct (p g) eqn:Hp; [by apply Hf|done].
Qed.

Ltac valid_step :=
  lazymatch goal with
  | |- preserves keeps_valid (query _ _) =>
      let d := fresh "d" in
      let Hd := fresh "Hd" in
      apply query_keeps_valid; intros d Hd;
      try (by apply (statuses_valid_same d))
  | |- preserves keeps_valid (emit _ _ _) => apply emit_keeps_valid
  | |- preserves keeps_valid (io_emit _ _) => apply emit_keeps_valid
  | |- preserves keeps_valid (io_to _ _ _) => apply emit_keeps_valid
  | |- preserves keeps_valid (socket_emit _ _ _) => apply emit_keeps_valid
  | |- preserves _ (match ?x with _ => _ end) => destruct x eqn:?
  | |- _ => preserve_step
  end.
Ltac valid := repeat (cbv zeta; valid_step).

Lemma on_connect_db E token sid ok w :
  w_db (on_connect E token sid ok w).2 = w_db w.
Proof. unfold on_connect, io_use. unfold_m. crunch; done. Qed.

(** X9: the routes keep every stored status within the four statuses of the
    schema: creation and PUT validate it, moderation writes [sent] or
    deletes. The socket handler [update_greeting_status] validates nothing:
    it keeps the property only when the payload's status happens to be one
    of the four, and otherwise stores the status it was given. *)
Theorem statuses_stay_valid E op w :
  statuses_valid (w_db w) →
  ((∀ sid d now ok, op = UpdateGreetingStatus sid (Some d) now ok →
                    status_enum (su_status d) = true) →
   statuses_valid (w_db (step E op w))) ∧
  (∀ sid s g st now,
     find_socket sid w = Some s → g ∈ Greetings (w_db w) →
     status_enum st = false →
     ¬ statuses_valid
         (w_db (step E (UpdateGreetingStatus sid
                          (Some (mkStatusUpdate (g_id g) st)) now true) w))).
Proof.
  intros Hw. split.
  - intros Hop. revert Hw. change (keeps_valid w (step E op w)).
    destruct op; cbn [step].
    + unfold keeps_valid. by rewrite on_connect_db.
    + intros Hw. exact Hw.
    + intros Hw. exact Hw.
    + intros Hw. exact Hw.
    + unfold on_socket. destruct (find_socket sid w); [|reflexivity].
      apply (preserves_exec keeps_valid). unfold send_group_message. valid.
    + unfold on_socket. destruct (find_socket sid w); [|reflexivity].
      apply (preserves_exec keeps_valid). unfold update_greeting_status. valid.
      unfold update_status_sql. simpl. apply (update_where_valid _ _ d); [|done].
      intros g _ _. simpl. by eapply Hop.
    + unfold on_socket. destruct (find_socket sid w); [|reflexivity].
      apply (preserves_exec keeps_valid). unfold admin_moderate. valid.
      * unfold statuses_valid in *. simpl. rewrite Forall_forall in *.
        intros g [_ Hg]%list_elem_of_filter. auto.
      * by apply (update_where_valid _ _ d).
    + apply (preserves_exec keeps_valid), (preserves_bind keeps_valid).
      * unfold authenticateToken. valid.
      * intros [r|u]; [apply (preserves_ret keeps_valid)|].
        unfold post_greetings_handler. valid.
        unfold statuses_valid in *. simpl. apply Forall_app. split; [done|].
        apply Forall_singleton. simpl.
        by eapply createGreetingInputSchema_Some.
    + apply (preserves_exec keeps_valid), (preserves_bind keeps_valid).
      * unfold authenticateToken. valid.
      * intros [r|u]; [apply (preserves_ret keeps_valid)|].
        unfold put_greeting_handler.
        destruct (updateGreetingInputSchema body) as [v|] eqn:Hv; valid.
        apply updateGreetingInputSchema_Some in Hv as (_ & _ & _ & Hen).
        unfold put_greeting_sql. simpl.
        apply (update_where_valid (λ g, bool_decide (g_id g = greeting_id))
                 (apply_update v now) d); [|done].
        intros g Hg _. simpl. destruct (ug_status v) as [st|] eqn:Hst;
          [by apply Hen|done].
    + apply (preserves_exec keeps_valid), (preserves_bind keeps_valid).
      * unfold authenticateToken. valid.
      * intros [r|u]; [apply (preserves_ret keeps_valid)|].
        unfold post_group_member_handler. valid.
    + apply (preserves_exec keeps_valid), (preserves_bind keeps_valid).
      * unfold authenticateToken. valid.
      * intros [r|u]; [apply (preserves_ret keeps_valid)|].
        unfold mark_read_handler. valid.
  - intros sid s g st now Hs Hg Hst Hvalid.
    destruct (socket_status_update_run E w g st now sid s Hs Hg)
      as (Hrow & _).
    unfold statuses_valid in Hvalid. rewrite Forall_forall in Hvalid.
    specialize (Hvalid _ Hrow). simpl in Hvalid. congruence.
Qed.

Lemma statuses_stay_valid_witness :
  statuses_valid (w_db (step Sample.collab Sample.reopen_greet3 Sample.online)) ∧
  ¬ statuses_valid
      (w_db (step Sample.collab
               (UpdateGreetingStatus "s1"
                  (Some (mkStatusUpdate "greet3" "archived"))
                  "2023-10-06T10:00:00Z" true) Sample.online)).
Proof.
  assert (statuses_valid (w_db Sample.online)) as Hvalid
    by (by repeat constructor).
  split.
  - destruct (statuses_stay_valid Sample.collab Sample.reopen_greet3
                Sample.online Hvalid) as [Hkeep _].
    apply Hkeep. by intros sid d now ok [= _ <- _ _].
  - destruct (statuses_stay_valid Sample.collab Sample.reopen_greet3
                Sample.online Hvalid) as [_ Hbreak].
    apply (Hbreak "s1" (mkSocket "s1" Sample.user1 ({[ "s1" ]} ∪ {[ "user1" ]}))
             Sample.greet3 "archived" "2023-10-06T10:00:00Z");
      [done|by do 2 right; left|done].
Defined.

(** ** Moderation over the socket *)

(** X10: [admin_moderate] from a socket whose user does not have the role
    [admin] changes nothing in the store and sends one [error] reply, to that
    socket only. The role is the one of the row read when the socket
    connected: the Users table is not consulted again. *)
Theorem moderation_requires_admin E sid s data ok w :
  find_socket sid w = Some s →
  u_role (sock_user s) ≠ "admin" →
  step E (AdminModerate sid data ok) w
  = push_log (mkEmission (ToSocket sid) "error"
                (PError "Admin access required") [sid]) w ∧
  ∀ d, w_log (step E (AdminModerate sid data ok) (set_db d w))
       = w_log (step E (AdminModerate sid data ok) w).
Proof.
  intros Hs Hrole. split.
  - cbn [step]. rewrite (on_socket_found _ _ _ _ Hs).
    unfold admin_moderate. unfold_m.
    rewrite bool_decide_eq_true_2 by done. simpl.
    by rewrite (find_socket_id _ _ _ Hs).
  - intros d. cbn [step].
    assert (find_socket sid (set_db d w) = Some s) as Hs' by done.
    rewrite (on_socket_found _ _ _ _ Hs), (on_socket_found _ _ _ _ Hs').
    unfold admin_moderate. unfold_m.
    by rewrite bool_decide_eq_true_2 by done.
Qed.

Lemma moderation_requires_admin_witness :
  step Sample.collab
    (AdminModerate "s1" (Some (mkModeration "greet1" "deleted")) true)
    Sample.online
  = push_log (mkEmission (ToSocket "s1") "error"
                (PError "Admin access required") ["s1"]) Sample.online.
Proof.
  apply (moderation_requires_admin Sample.collab "s1"
           (mkSocket "s1" Sample.user1 ({[ "s1" ]} ∪ {[ "user1" ]}))
           (Some (mkModeration "greet1" "deleted")) true Sample.online).
  - done.
  - done.
Defined.

(** X11: a moderation action from an admin socket, once the store has
    answered, is announced with [io.emit] to every connected socket, admins
    or not, whatever the action word is. [deleted] removes the rows with the
    greeting's id and nothing else (the notifications that reference it
    stay); [approved] sets their status to [sent] whatever it was; any other
    word changes nothing in the store. When the store throws, nothing is
    announced and the caller gets an [error] reply. *)
Theorem moderation_effects E sid s d w :
  find_socket sid w = Some s →
  u_role (sock_user s) = "admin" →
  (emitted w (step E (AdminModerate sid (Some d) true) w)
   = [mkEmission ToAll "admin_moderation_action"
        (PModeration (md_greeting_id d) (md_action d)) (connected w)]) ∧
  (md_action d = "deleted" →
   Greetings (w_db (step E (AdminModerate sid (Some d) true) w))
   = filter (λ g, g_id g ≠ md_greeting_id d) (Greetings (w_db w))) ∧
  (md_action d = "approved" →
   Greetings (w_db (step E (AdminModerate sid (Some d) true) w))
   = (λ g, if bool_decide (g_id g = md_greeting_id d)
           then with_status "sent" (g_updated_at g) g else g)
     <$> Greetings (w_db w)) ∧
  (md_action d ≠ "deleted" → md_action d ≠ "approved" →
   w_db (step E (AdminModerate sid (Some d) true) w) = w_db w) ∧
  Notifications (w_db (step E (AdminModerate sid (Some d) true) w))
  = Notifications (w_db w) ∧
  (md_action d = "deleted" ∨ md_action d = "approved" →
   step E (AdminModerate sid (Some d) false) w
   = push_log (mkEmission (ToSocket sid) "error"
                 (PError "Moderation action failed") [sid]) w).
Proof.
  intros Hs Hrole. cbn [step]. rewrite !(on_socket_found _ _ _ _ Hs).
  unfold admin_moderate, delete_greeting_sql, approve_sql. unfold_m.
  rewrite bool_decide_eq_false_2 by (by intros ?). simpl.
  rewrite (find_socket_id _ _ _ Hs).
  split_and!.
  - repeat case_bool_decide; by apply emitted_one.
  - intros Ha. by rewrite bool_decide_eq_true_2.
  - intros Ha. rewrite bool_decide_eq_false_2 by (rewrite Ha; done).
    by rewrite bool_decide_eq_true_2.
  - intros H1 H2. by rewrite !bool_decide_eq_false_2 by done.
  - by repeat case_bool_decide.
  - intros [Ha|Ha].
    + by rewrite bool_decide_eq_true_2.
    + rewrite bool_decide_eq_false_2 by (rewrite Ha; done).
      by rewrite bool_decide_eq_true_2.
Qed.

Lemma moderation_effects_witness :
  em_to <$> emitted Scenes.moderated
              (step Sample.collab
                 (AdminModerate "s5" (Some (mkModeration "greet4" "removed"))
                    true) Scenes.moderated)
  = [["s1"; "s2"; "s3"; "s4"; "s5"]] ∧
  w_db (step Sample.collab
          (AdminModerate "s5" (Some (mkModeration "greet4" "removed")) true)
          Scenes.moderated)
  = w_db Scenes.moderated.
Proof.
  destruct (moderation_effects Sample.collab "s5"
              (mkSocket "s5" Sample.admin1 ({[ "s5" ]} ∪ {[ "admin1" ]}))
              (mkModeration "greet4" "removed") Scenes.moderated eq_refl eq_refl)
    as (Hem & _ & _ & Hdb & _).
  split; [by rewrite Hem|by apply Hdb].
Defined.

(** ** Group chat: what can go wrong *)

(** X12: a group message that fails validation (a missing field or an empty
    content) or whose insert the store refuses changes nothing in the store
    and is not sent to the room: the sending socket alone gets an [error]
    reply. An accepted message is stored with the [sender_id] of the payload;
    the user of the sending socket is never compared with it. *)
Theorem group_message_failures E sid s data now uuid w :
  find_socket sid w = Some s →
  (createGroupChatMessageInputSchema data = None →
   ∀ ok, step E (SendGroupMessage sid data now uuid ok) w
         = push_log (mkEmission (ToSocket sid) "error"
                       (PError "Validation error") [sid]) w) ∧
  (createGroupChatMessageInputSchema data ≠ None →
   step E (SendGroupMessage sid data now uuid false) w
   = push_log (mkEmission (ToSocket sid) "error"
                 (PError "Failed to send message") [sid]) w) ∧
  (∀ v, createGroupChatMessageInputSchema data = Some v →
        rm_sender_id data = Some (ci_sender_id v) ∧
        ci_content v ≠ "" ∧
        GroupChatMessages
          (w_db (step E (SendGroupMessage sid data now uuid true) w))
        = GroupChatMessages (w_db w)
          ++ [mkChatMessage (or_else (Some (ci_id v)) uuid) (ci_group_id v)
                (ci_sender_id v) (ci_content v) now]).
Proof.
  intros Hs. cbn [step]. pose proof (find_socket_id _ _ _ Hs) as Hid.
  split_and!.
  - intros Hv ok. rewrite (on_socket_found _ _ _ _ Hs).
    unfold send_group_message. rewrite Hv. unfold_m. simpl. by rewrite Hid.
  - intros Hv. rewrite (on_socket_found _ _ _ _ Hs).
    unfold send_group_message. unfold_m.
    destruct (createGroupChatMessageInputSchema data); [|done].
    simpl. by rewrite Hid.
  - intros v Hv. rewrite (on_socket_found _ _ _ _ Hs).
    unfold send_group_message. rewrite Hv. unfold_m. simpl.
    unfold createGroupChatMessageInputSchema in Hv.
    destruct (rm_id data), (rm_group_id data), (rm_sender_id data),
      (rm_content data) as [c|]; simplify_eq/=.
    case_bool_decide as Hlen; simplify_eq/=. split_and!; [done| |done].
    intros ->. simpl in Hlen. lia.
Qed.

Lemma group_message_failures_witness :
  step Sample.collab
    (SendGroupMessage "s1" Scenes.empty_message "2023-10-06T09:00:00Z" "uuid-1"
       true) Sample.online
  = push_log (mkEmission (ToSocket "s1") "error" (PError "Validation error")
                ["s1"]) Sample.online.
Proof.
  destruct (group_message_failures Sample.collab "s1"
              (mkSocket "s1" Sample.user1 ({[ "s1" ]} ∪ {[ "user1" ]}))
              Scenes.empty_message "2023-10-06T09:00:00Z" "uuid-1" Sample.online
              eq_refl) as (Hinvalid & _).
  by apply Hinvalid.
Defined.

(** ** Adding a group member *)

Lemma createGroupMemberInputSchema_Some body v :
  createGroupMemberInputSchema body = Some v →
  rmb_user_id body = Some (mi_user_id v) ∧ role_enum (mi_role v) = true.
Proof.
  unfold createGroupMemberInputSchema. intros H.
  destruct (rmb_id body), (rmb_user_id body), (rmb_role body) as [r|];
    simplify_eq/=.
  destruct (role_enum r) eqn:Hr; by simplify_eq/=.
Qed.

(** X13: adding a member answers 404 and changes nothing when the group or
    the user does not exist. Otherwise a row is appended to GroupMembers,
    also when the user is a member already, and [member_joined] is sent to
    the sockets that are in the group's room at that moment; the sockets of
    the new member are not put in the room by this. *)
Theorem add_member_outcomes E a oa u gid body v now uuid w :
  (authenticateToken E a oa w).1 = Done (inr u) →
  createGroupMemberInputSchema body = Some v →
  (Forall (λ g, gr_id g ≠ gid) (Groups (w_db w)) →
   post_group_member E a gid body now uuid oa true true true w
   = (mkResp 404 (BError "Group not found" "GROUP_NOT_FOUND"), w)) ∧
  (gid ∈ gr_id <$> Groups (w_db w) →
   Forall (λ r, u_id r ≠ mi_user_id v) (Users (w_db w)) →
   post_group_member E a gid body now uuid oa true true true w
   = (mkResp 404 (BError "User not found" "USER_NOT_FOUND"), w)) ∧
  (gid ∈ gr_id <$> Groups (w_db w) →
   mi_user_id v ∈ u_id <$> Users (w_db w) →
   let member := mkGroupMember (or_else (Some (mi_id v)) uuid) gid
                   (mi_user_id v) (mi_role v) now in
   let r := post_group_member E a gid body now uuid oa true true true w in
   r.1 = mkResp 201 (BMember member) ∧
   GroupMembers (w_db r.2) = GroupMembers (w_db w) ++ [member] ∧
   w_sockets r.2 = w_sockets w ∧
   emitted w r.2
   = [mkEmission (ToRoom gid) "member_joined" (PMember member)
        (resolve w gid)]).
Proof.
  intros Hu Hv. unfold post_group_member.
  rewrite !(route_authenticated _ _ _ _ _ _ Hu).
  unfold post_group_member_handler. rewrite Hv. unfold_m.
  cbn [select_user]. split_and!.
  - intros Hnone. simpl. rewrite (filter_none _ _ Hnone). simpl.
    by rewrite set_db_id.
  - intros (g & Hgid & Hg)%list_elem_of_fmap Hnone. simpl.
    destruct (filter (λ g0, gr_id g0 = gid) (Groups (w_db w))) as [|g' l] eqn:Hf.
    { assert (g ∈ filter (λ g0, gr_id g0 = gid) (Groups (w_db w))) as Hin
        by by apply list_elem_of_filter.
      rewrite Hf in Hin. by apply elem_of_nil in Hin. }
    simpl. rewrite (filter_none _ _ Hnone). simpl. by rewrite !set_db_id.
  - intros (g & Hgid & Hg)%list_elem_of_fmap (r & Huid & Hr)%list_elem_of_fmap.
    simpl.
    destruct (filter (λ g0, gr_id g0 = gid) (Groups (w_db w))) as [|g' l] eqn:Hf.
    { assert (g ∈ filter (λ g0, gr_id g0 = gid) (Groups (w_db w))) as Hin
        by by apply list_elem_of_filter.
      rewrite Hf in Hin. by apply elem_of_nil in Hin. }
    simpl.
    destruct (filter (λ u0, u_id u0 = mi_user_id v) (Users (w_db w)))
      as [|r' l'] eqn:Hf'.
    { assert (r ∈ filter (λ u0, u_id u0 = mi_user_id v) (Users (w_db w))) as Hin
        by by apply list_elem_of_filter.
      rewrite Hf' in Hin. by apply elem_of_nil in Hin. }
    simpl. split_and!; [done..|]. by apply emitted_one.
Qed.

Lemma add_member_outcomes_witness :
  is_member (w_db Sample.online) "user2" "group1" = true ∧
  GroupMembers
    (w_db (post_group_member Sample.collab (Some "Bearer t:user1") "group1"
             Scenes.again "2023-10-06T09:01:00Z" "uuid-2" true true true true
             Sample.online).2)
  = GroupMembers (w_db Sample.online)
    ++ [mkGroupMember "gm7" "group1" "user2" "member" "2023-10-06T09:01:00Z"].
Proof.
  split; [by vm_compute|].
  assert ((authenticateToken Sample.collab (Some "Bearer t:user1") true
             Sample.online).1 = Done (inr Sample.user1)) as Hu
    by (by vm_compute).
  destruct (add_member_outcomes Sample.collab (Some "Bearer t:user1") true
              Sample.user1 "group1" Scenes.again
              (mkMemberInput "gm7" "user2" "member") "2023-10-06T09:01:00Z"
              "uuid-2" Sample.online Hu eq_refl) as (_ & _ & Hok).
  destruct Hok as (_ & Hrows & _).
  - apply (bool_decide_unpack _). by vm_compute.
  - apply (bool_decide_unpack _). by vm_compute.
  - exact Hrows.
Defined.

(** ** Creating a greeting: validation and authorship *)



(** ** The delete routes *)

Lemma route_reply_authenticated E a ok (h : UserRow → M Reply) w u :
  (authenticateToken E a ok w).1 = Done (inr u) →
  route_reply E a ok h w = exec (h u) (Json internal_error) w.
Proof.
  intros Hu. destruct (authenticateToken_done E a ok w) as [r Hr].
  rewrite Hr in Hu. simplify_eq/=.
  unfold route_reply, exec, mbind, M_bind, bind. by rewrite Hr.
Qed.





Lemma delete_user_handler_run uid u w :
  exec (delete_user_handler uid true u) (Json internal_error) w
  = (match filter (λ x, u_id x = uid) (Users (w_db w)) with
     | [] => Json (mkResp 404 (BError "User not found" "USER_NOT_FOUND"))
     | _ :: _ => NoContent
     end,
     set_db (set_users (filter (λ x, u_id x ≠ uid) (Users (w_db w))) (w_db w))
       w).
Proof.
  unfold delete_user_handler. unfold_m. simpl.
  by destruct (filter (λ x, u_id x = uid) (Users (w_db w))).
Qed.




(** X17: the privileges of a socket are those of the user row read when it
    connected. After the row of an admin is deleted, the admin's socket is
    still connected and its moderation actions still go through: a [deleted]
    action removes the greeting. *)
Theorem socket_outlives_user E a oa u sid s d w :
  (authenticateToken E a oa w).1 = Done (inr u) →
  find_socket sid w = Some s →
  u_role (sock_user s) = "admin" →
  md_action d = "deleted" →
  let w1 := (delete_user E a (u_id (sock_user s)) oa true w).2 in
  Forall (λ x, u_id x ≠ u_id (sock_user s)) (Users (w_db w1)) ∧
  sid ∈ connected w1 ∧
  Greetings (w_db (step E (AdminModerate sid (Some d) true) w1))
  = filter (λ g, g_id g ≠ md_greeting_id d) (Greetings (w_db w)) ∧
  emitted w1 (step E (AdminModerate sid (Some d) true) w1)
  = [mkEmission ToAll "admin_moderation_action"
       (PModeration (md_greeting_id d) (md_action d)) (connected w)].
Proof.
  intros Hu Hs Hrole Ha. cbn zeta. unfold delete_user.
  rewrite (route_reply_authenticated _ _ _ _ _ _ Hu), delete_user_handler_run.
  cbn [snd].
  set (w1 := set_db _ w).
  assert (find_socket sid w1 = Some s) as Hs1 by done.
  split_and!.
  - simpl. apply Forall_forall. by intros x [? _]%list_elem_of_filter.
  - by apply (find_socket_connected sid w1 s).
  - cbn [step]. rewrite (on_socket_found _ _ _ _ Hs1).
    unfold admin_moderate, delete_greeting_sql. unfold_m.
    rewrite bool_decide_eq_false_2 by (by intros ?). simpl.
    by rewrite bool_decide_eq_true_2.
  - cbn [step]. rewrite (on_socket_found _ _ _ _ Hs1).
    unfold admin_moderate, delete_greeting_sql. unfold_m.
    rewrite bool_decide_eq_false_2 by (by intros ?). simpl.
    rewrite bool_decide_eq_true_2 by done. by apply emitted_one.
Qed.

Lemma socket_outlives_user_witness :
  let w1 := (delete_user Sample.collab (Some "Bearer t:user3") "admin1" true
               true Scenes.moderated).2 in
  u_id <$> Users (w_db w1) = ["user1"; "user2"; "user3"] ∧
  g_id <$> Greetings (w_db (step Sample.collab
                              (AdminModerate "s5"
                                 (Some (mkModeration "greet4" "deleted")) true)
                              w1))
  = ["greet1"; "greet2"; "greet3"].
Proof.
  assert ((authenticateToken Sample.collab (Some "Bearer t:user3") true
             Scenes.moderated).1 = Done (inr Sample.user3)) as Hu
    by (by vm_compute).
  destruct (socket_outlives_user Sample.collab (Some "Bearer t:user3") true
              Sample.user3 "s5"
              (mkSocket "s5" Sample.admin1 ({[ "s5" ]} ∪ {[ "admin1" ]}))
              (mkModeration "greet4" "deleted") Scenes.moderated Hu eq_refl
              eq_refl eq_refl) as (_ & _ & Hg & _).
  split; [by vm_compute|].
  etrans; [exact (f_equal (fmap g_id) Hg)|by vm_compute].
Defined.

(** ** The query of [GET /api/greetings] *)

Lemma render_filters_app n fs gs :
  render_filters n (fs ++ gs)
  = render_filters n fs +:+ render_filters (n + length fs) gs.
Proof.
  revert n. induction fs as [|[c v] fs IH]; intros n.
  - simpl. by rewrite Nat.add_0_r.
  - cbn [app render_filters length]. rewrite IH, !string_app_assoc.
    by rewrite Nat.add_succ_r.
Qed.

Lemma add_filter_spec sel cond c v fs :
  add_filter cond c v (sel +:+ render_filters 1 fs, fs.*2, S (length fs))
  = let fs' := fs ++ active_filters [(cond, (c, v))] in
    (sel +:+ render_filters 1 fs', fs'.*2, S (length fs')).
Proof.
  unfold add_filter, active_filters. destruct cond; cbn zeta.
  - rewrite filter_cons, decide_True, filter_nil by done. cbn [fmap list_fmap snd].
    rewrite render_filters_app, fmap_app, length_app, Nat.add_1_r.
    cbn [render_filters length fmap list_fmap snd].
    by rewrite !string_app_assoc, string_app_nil_r.
  - rewrite filter_cons, decide_False, filter_nil by done. cbn [fmap list_fmap].
    by rewrite app_nil_r.
Qed.

Lemma add_filters_spec sel l : ∀ fs,
  foldl (λ b x, add_filter x.1 x.2.1 x.2.2 b)
    (sel +:+ render_filters 1 fs, fs.*2, S (length fs)) l
  = let fs' := fs ++ active_filters l in
    (sel +:+ render_filters 1 fs', fs'.*2, S (length fs')).
Proof.
  induction l as [|[cond [c v]] l IH]; intros fs; cbn zeta.
  - unfold active_filters. rewrite filter_nil. simpl. by rewrite app_nil_r.
  - cbn [foldl fst snd]. rewrite add_filter_spec. cbn zeta. rewrite IH.
    cbn zeta. unfold active_filters.
    rewrite (filter_cons _ (cond, (c, v)) l), !filter_cons, filter_nil.
    destruct cond; simpl.
    + by rewrite <- app_assoc.
    + by rewrite app_nil_r.
Qed.

(** X18: the statement of [GET /api/greetings] and its parameter list stay
    aligned. With the n filters whose condition holds, taken in source order,
    the text is the SELECT followed by their clauses with placeholders $1 to
    $n, then the ORDER BY with the raw [sort_by] and [sort_order], then LIMIT
    $n+1 and OFFSET $n+2; the parameters are the n filter values followed by
    the limit and the offset. *)
Theorem greetings_query_aligned req_user q :
  let fs := active_filters (greetings_conditions req_user q) in
  let n := length fs in
  list_greetings_query req_user q
  = (greetings_select +:+ render_filters 1 fs
       +:+ " ORDER BY " +:+ or_default (q_sort_by q) "created_at" +:+ " "
       +:+ or_default (q_sort_order q) "desc"
       +:+ " LIMIT $" +:+ pretty (S n) +:+ " OFFSET $" +:+ pretty (S (S n)),
     fs.*2 ++ [PNumber (num_arg (q_limit q) 10);
               PNumber (num_arg (q_offset q) 0)]).
Proof.
  cbn zeta. unfold list_greetings_query. cbv zeta.
  pose proof (add_filters_spec greetings_select
                (greetings_conditions req_user q) []) as Hspec.
  cbn zeta in Hspec. rewrite app_nil_l in Hspec.
  unfold greetings_conditions in Hspec at 1. cbn [foldl fst snd] in Hspec.
  change (greetings_select +:+ render_filters 1 [], [].*2, S (length []))
    with (greetings_select, @nil SqlParam, 1%nat) in Hspec.
  rewrite Hspec. by rewrite string_app_assoc.
Qed.

(** X19: the route is registered without authentication, so [req.user] is
    never set and the tabs [sent] and [received] add no filter: whatever the
    tab, unless it is [drafts], the query is the one of a request without
    tab, which selects the greetings of every user. *)
Theorem greetings_tab_ignored q tab :
  tab ≠ Some "drafts" →
  get_greetings_query (with_tab tab q) = get_greetings_query (with_tab None q).
Proof.
  intros Htab. unfold get_greetings_query, list_greetings_query. cbn zeta.
  cbn [q_tab with_tab q_recipient_id q_date_min q_date_max q_search_query
         q_limit q_offset q_sort_by q_sort_order].
  rewrite (bool_decide_eq_false_2 (is_Some None)) by (by intros [? ?]).
  rewrite !andb_false_r.
  by rewrite (bool_decide_eq_false_2 (tab = Some "drafts")),
    (bool_decide_eq_false_2 (None = Some "drafts")).
Qed.

Lemma greetings_tab_ignored_witness :
  get_greetings_query
    (mkGreetingsQuery (Some "sent") None None None None None None None None)
  = ("SELECT id, content, sender_id, recipient_type, recipient_id, status, scheduled_at, created_at, updated_at FROM Greetings WHERE 1=1 ORDER BY created_at desc LIMIT $1 OFFSET $2",
     [PNumber (NumDefault 10); PNumber (NumDefault 0)]).
Proof.
  etrans;
    [apply (greetings_tab_ignored
              (mkGreetingsQuery None None None None None None None None None)
              (Some "sent")); done|].
  by vm_compute.
Defined.

(** ** The client store and the events of the server *)

Lemma string_length_app a b :
  String.length (a +:+ b) = (String.length a + String.length b)%nat.
Proof.
  induction a as [|c a IH]; [done|].
  change (S (String.length (a +:+ b)) = S (String.length a + String.length b)).
  by rewrite IH.
Qed.

Lemma status_event_name gid :
  "greeting_" +:+ gid +:+ "_status" ≠ "greeting_created" ∧
  "greeting_" +:+ gid +:+ "_status" ≠ "greeting_status_updated".
Proof.
  split; intros H.
  - assert (String.length gid = 0%nat) as Hlen.
    { apply (f_equal String.length) in H. rewrite !string_length_app in H.
      simpl in H. lia. }
    destruct gid; done.
  - assert (String.length gid = 7%nat) as Hlen.
    { apply (f_equal String.length) in H. rewrite !string_length_app in H.
      simpl in H. lia. }
    do 8 (destruct gid as [|? gid]; try done).
    all: unfold String.append in H; simpl in H; simplify_eq.
Qed.

Lemma updated_event_name gid :
  "greeting_" +:+ gid +:+ "_updated" ≠ "greeting_created" ∧
  ("greeting_" +:+ gid +:+ "_updated" = "greeting_status_updated" →
   gid = "status").
Proof.
  split; intros H.
  - apply (f_equal String.length) in H. rewrite !string_length_app in H.
    simpl in H. lia.
  - assert (String.length gid = 6%nat) as Hlen.
    { apply (f_equal String.length) in H. rewrite !string_length_app in H.
      simpl in H. lia. }
    do 7 (destruct gid as [|? gid]; try done).
    all: unfold String.append in H; simpl in H; by simplify_eq.
Qed.

Lemma status_op_events E op w em :
  status_change_op op = true →
  em ∈ emitted w (step E op w) →
  (∃ m, em_payload em = PError m) ∨
  (∃ g gid, em_payload em = PGreeting g ∧
            em_event em = "greeting_" +:+ gid +:+ "_status") ∨
  (∃ g a gid body now oa ok,
     op = PutGreeting a gid body now oa ok ∧ em_payload em = PGreeting g ∧
     em_event em = "greeting_" +:+ gid +:+ "_updated").
Proof.
  intros Hop Hem. destruct op; try done; cbn [step] in Hem.
  - unfold on_socket in Hem. destruct (find_socket sid w) as [s|];
      [|by emitted_compute; apply elem_of_nil in Hem].
    revert Hem. unfold update_greeting_status. unfold_m.
    crunch; emitted_compute; intros Hem;
      first [ by apply elem_of_nil in Hem
            | apply list_elem_of_singleton in Hem; subst em; simpl; eauto 10 ].
  - destruct (route_cases E authHeader ok_auth
                (put_greeting_handler greeting_id body now ok) w)
      as [[r Hr]|(u & _ & Hr)]; unfold put_greeting in Hem;
      rewrite Hr in Hem;
      [by emitted_compute; apply elem_of_nil in Hem|].
    revert Hem. unfold put_greeting_handler. unfold_m.
    crunch; emitted_compute; intros Hem;
      first [ by apply elem_of_nil in Hem
            | apply list_elem_of_singleton in Hem; subst em; simpl;
              right; right; eauto 15 ].
Qed.

(** X20: the names do not meet. The socket handler emits status changes as
    [greeting_<id>_status] and the PUT route as [greeting_<id>_updated],
    while the client store listens for [greeting_status_updated]: no event
    of the socket handler changes the store of a client, and an event of the
    PUT route does so only for a greeting whose id is the word [status]. *)
Theorem client_misses_status_events E op w em st :
  status_change_op op = true →
  em ∈ emitted w (step E op w) →
  (∀ a body now oa ok, op ≠ PutGreeting a "status" body now oa ok) →
  client_on (em_event em) (em_payload em) st = st.
Proof.
  intros Hop Hem Hput.
  destruct (status_op_events E op w em Hop Hem)
    as [[m ->]|[(g & gid & -> & ->)|(g & a & gid & body & now & oa & ok &
                                      -> & -> & ->)]].
  - done.
  - destruct (status_event_name gid) as [H1 H2]. simpl.
    by rewrite !bool_decide_eq_false_2.
  - destruct (updated_event_name gid) as [H1 H2]. simpl.
    rewrite (bool_decide_eq_false_2 _ H1).
    rewrite bool_decide_eq_false_2; [done|].
    intros ->%H2. by eapply Hput.
Qed.

Lemma client_misses_status_events_witness :
  client_on (em_event Sample.delivered_event)
    (em_payload Sample.delivered_event)
    (mkClient [Sample.greet1; Sample.greet2] [] [] [] 0 [])
  = mkClient [Sample.greet1; Sample.greet2] [] [] [] 0 [].
Proof.
  apply (client_misses_status_events Sample.collab Sample.deliver_greet1
           Sample.online Sample.delivered_event
           (mkClient [Sample.greet1; Sample.greet2] [] [] [] 0 [])).
  - done.
  - assert (emitted Sample.online (step Sample.collab Sample.deliver_greet1
                                     Sample.online) = [Sample.delivered_event])
      as -> by (by vm_compute).
    by apply list_elem_of_singleton.
  - done.
Defined.

(** X21: of the events that a creation emits, the listeners of the client
    store react to [greeting_created] alone. The listener, run on that event,
    puts the row as stored at the head of the store's greetings, whoever its
    sender and recipient are, and changes nothing else. No listener is
    registered for the [notification] event that follows: run on it, the
    listeners leave the notifications and the unread counter as they are.
    This is a statement about the listeners; how a store comes to receive an
    event is not part of it. *)
Theorem created_greeting_listeners E a oa u body v now u1 u2 on w :
  (authenticateToken E a oa w).1 = Done (inr u) →
  createGreetingInputSchema body = Some v →
  let log := emitted w (post_greetings E a body now u1 u2 oa true on w).2 in
  head log = Some (mkEmission ToAll "greeting_created"
                     (PGreeting (greeting_row v now u1)) (connected w)) ∧
  ∀ em st, em ∈ log →
    client_on (em_event em) (em_payload em) st
    = if bool_decide (em_event em = "greeting_created")
      then set_cs_greetings (greeting_row v now u1 :: cs_greetings st) st
      else st.
Proof.
  intros Hu Hv. cbn zeta. unfold post_greetings.
  rewrite (route_authenticated _ _ _ _ _ _ Hu).
  rewrite (post_greetings_handler_ok _ _ _ _ _ _ _ _ Hv). cbn zeta.
  case_bool_decide; [destruct on|]; emitted_compute; (split; [done|]);
    intros em st Hem;
    repeat (apply elem_of_cons in Hem as [->|Hem]; [done|]);
    by apply elem_of_nil in Hem.
Qed.

Lemma created_greeting_listeners_witness :
  client_on "greeting_created"
    (PGreeting
       (greeting_row
          (mkCreateGreeting "greet5" (Some "{text: Get well soon!}") "user1"
             "user" "user2" "delivered" None)
          "2023-10-06T12:00:00Z" "uuid-g"))
    (mkClient [Sample.greet4] [] [] [] 0 [])
  = mkClient
      [greeting_row
         (mkCreateGreeting "greet5" (Some "{text: Get well soon!}") "user1"
            "user" "user2" "delivered" None)
         "2023-10-06T12:00:00Z" "uuid-g";
       Sample.greet4] [] [] [] 0 [].
Proof.
  assert ((authenticateToken Sample.collab (Some "Bearer t:user1") true
             Sample.online).1 = Done (inr Sample.user1)) as Hu
    by (by vm_compute).
  destruct (created_greeting_listeners Sample.collab
              (Some "Bearer t:user1") true Sample.user1 Sample.card
              (mkCreateGreeting "greet5" (Some "{text: Get well soon!}")
                 "user1" "user" "user2" "delivered" None)
              "2023-10-06T12:00:00Z" "uuid-g" "uuid-n" true
              Sample.online Hu eq_refl) as [Hhead Hon].
  apply head_Some_elem_of in Hhead.
  exact (Hon _ (mkClient [Sample.greet4] [] [] [] 0 []) Hhead).
Defined.

(** ** The client store on its own *)

Lemma findIndex_Some {A} (p : A → bool) (l : list A) i :
  findIndex p l = Some i →
  ∃ x, l !! i = Some x ∧ p x = true ∧
       ∀ j y, (j < i)%nat → l !! j = Some y → p y = false.
Proof.
  revert i. induction l as [|x l IH]; intros i Hi; [done|]. simpl in Hi.
  destruct (p x) eqn:Hp.
  - simplify_eq. exists x. split_and!; [done..|]. intros j y Hj. lia.
  - destruct (findIndex p l) as [i'|] eqn:Hfi; simplify_eq/=.
    destruct (IH i' eq_refl) as (x' & Hx' & Hpx' & Hmin).
    exists x'. split_and!; [done..|]. intros [|j] y Hj Hy; simplify_eq/=; [done|].
    apply (Hmin j); [lia|done].
Qed.

Lemma findIndex_None {A} (p : A → bool) (l : list A) :
  findIndex p l = None ↔ Forall (λ x, p x = false) l.
Proof.
  induction l as [|x l IH]; simpl; [done|].
  destruct (p x) eqn:Hp.
  - split; [done|]. intros [? _]%Forall_cons. congruence.
  - rewrite Forall_cons. destruct (findIndex p l); simpl.
    + split; [done|]. intros [_ H%IH]. done.
    + split; [|done]. intros _. split; [done|]. by apply IH.
Qed.

(** X22: the client's [greeting_status_updated] listener replaces the first
    greeting of the list that has the id of the one received and touches
    nothing else: the list keeps its length and its ids, every other
    position is as before, and a greeting whose id is not in the list is
    dropped, not added. *)
Theorem client_status_listener g st :
  let st' := client_on "greeting_status_updated" (PGreeting g) st in
  g_id <$> cs_greetings st' = g_id <$> cs_greetings st ∧
  (g_id g ∉ g_id <$> cs_greetings st → st' = st) ∧
  (∀ i, findIndex (λ x, bool_decide (g_id x = g_id g)) (cs_greetings st)
        = Some i →
        cs_greetings st' !! i = Some g ∧
        ∀ j, j ≠ i → cs_greetings st' !! j = cs_greetings st !! j).
Proof.
  cbn zeta. unfold client_on.
  rewrite (bool_decide_eq_false_2 ("greeting_status_updated" = "greeting_created"))
    by done.
  rewrite bool_decide_eq_true_2 by done.
  destruct (findIndex (λ x, bool_decide (g_id x = g_id g)) (cs_greetings st))
    as [i|] eqn:Hfi.
  - destruct (findIndex_Some _ _ _ Hfi) as (x & Hx & Hp & _).
    apply bool_decide_eq_true in Hp. split_and!.
    + simpl. rewrite list_fmap_insert, <- Hp.
      apply list_insert_id. by rewrite list_lookup_fmap, Hx.
    + intros Hno. exfalso. apply Hno. apply list_elem_of_fmap.
      exists x. split; [done|]. by eapply list_elem_of_lookup_2.
    + intros i' [= <-]. simpl. split.
      * apply list_lookup_insert_eq. by eapply lookup_lt_Some.
      * intros j Hj. by apply list_lookup_insert_ne.
  - split_and!; [done|done|done].
Qed.

Lemma filter_length_insert {A} (P : A → Prop) `{!∀ x, Decision (P x)}
    (l : list A) i x y :
  l !! i = Some x →
  (length (filter P (<[i := y]> l)) + (if decide (P x) then 1 else 0)
   = length (filter P l) + (if decide (P y) then 1 else 0))%nat.
Proof.
  revert i. induction l as [|z l IH]; intros [|i] Hi; simplify_eq/=.
  - rewrite !filter_cons. repeat case_decide; simpl; lia.
  - rewrite !filter_cons. specialize (IH i Hi).
    repeat case_decide; simpl in *; lia.
Qed.

(** X23: the unread counter of the client store is the number of unread
    notifications right after a fetch, and marking an unread notification as
    read keeps it so. Marking one that is already read still subtracts one:
    from then on the counter is one below the number of unread
    notifications. Marking an unknown id changes nothing. *)
Theorem unread_counter_drift nid now data st :
  now ≠ "" →
  cs_unread_count (fetch_notifications_ok data st)
  = unread (fetch_notifications_ok data st) ∧
  (cs_unread_count st = unread st →
   ∀ i n,
     findIndex (λ x, bool_decide (n_id x = nid)) (cs_notifications st) = Some i →
     cs_notifications st !! i = Some n →
     let st' := mark_notification_read nid now st in
     (falsy (n_read_at n) = true → cs_unread_count st' = unread st') ∧
     (falsy (n_read_at n) = false → cs_unread_count st' = (unread st' - 1)%Z)) ∧
  (nid ∉ n_id <$> cs_notifications st → mark_notification_read nid now st = st).
Proof.
  intros Hnow. split_and!.
  - done.
  - intros Hinv i n Hfi Hn. cbn zeta. unfold mark_notification_read.
    rewrite Hfi, Hn. unfold unread in *. simpl. rewrite Hinv.
    pose proof (filter_length_insert (λ x, falsy (n_read_at x) = true)
                  (cs_notifications st) i n (with_read_at now n) Hn) as Hlen.
    rewrite (decide_False (P := falsy (n_read_at (with_read_at now n)) = true))
      in Hlen by (simpl; by rewrite bool_decide_eq_false_2).
    split; intros Hread.
    + rewrite decide_True in Hlen by done. lia.
    + rewrite decide_False in Hlen by congruence. lia.
  - intros Hno. unfold mark_notification_read.
    destruct (findIndex _ _) as [i|] eqn:Hfi; [|done].
    destruct (findIndex_Some _ _ _ Hfi) as (x & Hx & Hp & _).
    apply bool_decide_eq_true in Hp. exfalso. apply Hno.
    apply list_elem_of_fmap. exists x. split; [done|].
    by eapply list_elem_of_lookup_2.
Qed.

Lemma unread_counter_drift_witness :
  let st := fetch_notifications_ok (Notifications (w_db Sample.read_once))
              (mkClient [] [] [] [] 0 []) in
  cs_unread_count st = 0%Z ∧
  cs_unread_count (mark_notification_read "uuid-n" "2023-10-09T07:00:00Z" st)
  = (unread (mark_notification_read "uuid-n" "2023-10-09T07:00:00Z" st) - 1)%Z.
Proof.
  cbn zeta. split; [by vm_compute|].
  destruct (unread_counter_drift "uuid-n" "2023-10-09T07:00:00Z"
              (Notifications (w_db Sample.read_once))
              (fetch_notifications_ok (Notifications (w_db Sample.read_once))
                 (mkClient [] [] [] [] 0 [])))
    as (_ & Hmark & _); [done|].
  apply (Hmark eq_refl 0%nat
           (mkNotification "uuid-n" "user2" "greet5"
              "You received a new greeting!" (Some "2023-10-07T08:00:00Z")
              "2023-10-06T12:00:00Z")); by vm_compute.
Defined.

Lemma client_status_listener_witness :
  cs_greetings
    (client_on "greeting_status_updated"
       (PGreeting (with_status "delivered" "2023-10-06T10:00:00Z" Sample.greet1))
       (mkClient [Sample.greet2; Sample.greet1] [] [] [] 0 []))
  !! 1%nat
  = Some (with_status "delivered" "2023-10-06T10:00:00Z" Sample.greet1).
Proof.
  destruct (client_status_listener
              (with_status "delivered" "2023-10-06T10:00:00Z" Sample.greet1)
              (mkClient [Sample.greet2; Sample.greet1] [] [] [] 0 []))
    as (_ & _ & Hat).
  by destruct (Hat 1%nat eq_refl) as [Hg _].
Defined.

(** ** The status handler: who may call it, and what it answers *)

(** X24: [update_greeting_status] acts for any connected socket alike: the
    store after the call does not depend on which socket sent it, so any
    connected user can set the status of any greeting. A greeting id that no
    row has is ignored in silence: nothing is stored, nothing is emitted and
    the caller gets no reply. A call without payload gets the [error]
    reply. *)
Theorem status_update_edge_cases E sid s now w :
  find_socket sid w = Some s →
  (∀ gid st,
     Forall (λ g, g_id g ≠ gid) (Greetings (w_db w)) →
     step E (UpdateGreetingStatus sid (Some (mkStatusUpdate gid st)) now true) w
     = w) ∧
  (∀ ok, step E (UpdateGreetingStatus sid None now ok) w
         = push_log (mkEmission (ToSocket sid) "error"
                       (PError "Failed to update greeting status") [sid]) w) ∧
  (∀ sid' s' data ok,
     find_socket sid' w = Some s' →
     w_db (step E (UpdateGreetingStatus sid' data now ok) w)
     = w_db (step E (UpdateGreetingStatus sid data now ok) w)).
Proof.
  intros Hs. pose proof (find_socket_id _ _ _ Hs) as Hid. split_and!.
  - intros gid st Hnone. cbn [step].
    rewrite (on_socket_found _ _ _ _ Hs), update_greeting_status_ok. cbn zeta.
    rewrite update_where_miss.
    + simpl. by rewrite set_greetings_id, set_db_id.
    + eapply Forall_impl; [exact Hnone|]. intros g Hg.
      by apply bool_decide_eq_false.
  - intros ok. cbn [step]. rewrite (on_socket_found _ _ _ _ Hs).
    unfold update_greeting_status. unfold_m. simpl. by rewrite Hid.
  - intros sid' s' data ok Hs'. cbn [step].
    rewrite (on_socket_found _ _ _ _ Hs), (on_socket_found _ _ _ _ Hs').
    destruct ok.
    + destruct data as [[gid st]|].
      * rewrite !update_greeting_status_ok. cbn zeta.
        by destruct (update_where _ _ _).2.
      * unfold update_greeting_status. by unfold_m.
    + by rewrite !update_greeting_status_fail.
Qed.

Lemma status_update_edge_cases_witness :
  step Sample.collab
    (UpdateGreetingStatus "s4" (Some (mkStatusUpdate "greet9" "sent"))
       "2023-10-06T10:00:00Z" true) Sample.online
  = Sample.online.
Proof.
  destruct (status_update_edge_cases Sample.collab "s4"
              (mkSocket "s4" Sample.user3 ({[ "s4" ]} ∪ {[ "user3" ]}))
              "2023-10-06T10:00:00Z" Sample.online eq_refl) as (Hmiss & _).
  apply Hmiss. by repeat constructor.
Defined.

(** ** Registry and log *)

(** X25: the registry operations and the handlers keep apart. Connecting,
    disconnecting, joining and leaving write nothing to the store and emit
    nothing, so no presence or membership event exists; every other operation
    leaves the sockets and their rooms exactly as they are, so adding a
    member does not subscribe anybody and deleting or moderating does not
    unsubscribe anybody. *)
Theorem registry_and_handlers_apart E op w :
  (if socket_op op
   then w_db (step E op w) = w_db w ∧ w_log (step E op w) = w_log w
   else w_sockets (step E op w) = w_sockets w ∧
        ∀ r, resolve (step E op w) r = resolve w r).
Proof.
  destruct (socket_op op) eqn:Hop.
  - destruct op; try done; cbn [step].
    split; [apply on_connect_db|apply on_connect_log].
  - destruct (step_extends E op w Hop) as [Hs _]. split; [done|].
    intros r. unfold resolve. by rewrite Hs.
Qed.
